(** * ADF z-statistic critical-value simulation

    A shallow embedding of
    [arch/unitroot/critical_values/simulation/adf_z_critical_values_simulation_joblib.py]
    and the properties of its blocked simulation loop, its statistic
    generator and its experiment driver.

    Python integers are [Z].  The [float64] element type and the NumPy
    routines the script imports ([pinv], the legacy [RandomState] variate
    streams) are not part of the script: they are the fields of the classes
    [DType] and [Library] below, and every definition is written once, over
    any instance.  Two instances are used: exact rationals ([Qc]) to run the
    code on concrete inputs, and the kernel's binary64 floats for the
    behaviour of a degenerate regression.  The one float expression of the
    script itself, the block size of line 42, is evaluated in binary64 with
    the Standard Library's specification of the format. *)

From Stdlib Require Import String ZArith List Bool Lia.
From Stdlib Require Import QArith Qcanon Field.
From Stdlib Require Import Floats.
Import ListNotations.

Local Open Scope Z_scope.

(** ** Exceptions *)

(** The three Python exceptions the modelled code can raise. *)
Inductive exn : Type :=
| ValueError
| ZeroDivisionError
| OverflowError.

Inductive result (A : Type) : Type :=
| Ok (a : A)
| Raise (e : exn).

Arguments Ok {A} a.
Arguments Raise {A} e.

Definition bind {A B : Type} (c : result A) (k : A -> result B) : result B :=
  match c with
  | Ok a => k a
  | Raise e => Raise e
  end.

Notation "x <- c ;; k" := (bind c (fun x => k))
  (at level 61, c at next level, right associativity).
Notation "' p <- c ;; k" := (bind c (fun p => k))
  (at level 61, p pattern, c at next level, right associativity).

(** ** The element type and the library routines *)

(** The array element type with the arithmetic NumPy applies elementwise.
    [Fof_Z] is the conversion of a Python integer to the element type. *)
Class DType : Type := {
  F : Type;
  F0 : F;
  F1 : F;
  Fadd : F -> F -> F;
  Fsub : F -> F -> F;
  Fmul : F -> F -> F;
  Fdiv : F -> F -> F;
  Fof_Z : Z -> F
}.

(** What the script takes from [numpy.linalg] and [numpy.random].
    - [pinv z] is [numpy.linalg.pinv] on a matrix given by its rows.
    - [gauss key k] is the [k]-th standard-normal variate (counting from 0)
      of the legacy generator whose state was initialised from [key]; the
      generator hands its variates out one after the other, whatever the
      shapes of the calls that ask for them.
    - [rand_int key k low high] is the [k]-th integer of
      [random_integers(low, high)]. *)
Class Library (D : DType) : Type := {
  pinv : list (list F) -> list (list F);
  gauss : Z -> Z -> F;
  rand_int : Z -> Z -> Z -> Z -> Z
}.

(** ** Module constants (lines 18-25) *)

Definition NUM_JOBS : Z := 4.
Definition EX_NUM : Z := 500.
Definition EX_SIZE : Z := 200000.
Definition MAX_MEMORY_SIZE : Z := 100.

(** ** Random state *)

(** A [RandomState] object: the key its stream was initialised from and the
    number of variates already handed out. *)
Record RandomState : Type := mkRandomState {
  rs_key : Z;
  rs_pos : Z
}.

(** [RandomState()] with no argument initialises the stream from operating
    system entropy, here the argument. *)
Definition RandomState_new (entropy : Z) : RandomState :=
  mkRandomState entropy 0.

(** [rng.seed(seed)] and [RandomState(seed)] for an integer [seed]: a seed
    outside 0 .. 2^32 - 1 raises [ValueError]; otherwise the whole state is
    replaced by the one derived from [seed]. *)
Definition RandomState_seed (rng : RandomState) (seed : Z)
  : result RandomState :=
  if (seed <? 0) || (2 ^ 32 - 1 <? seed) then Raise ValueError
  else Ok (mkRandomState seed 0).

(** ** Python floats (line 42)

    A Python float is an IEEE 754 binary64 number, here a [spec_float]
    with the operations of the Standard Library's specification of binary64
    (53 bits of precision, round to nearest even). *)

(** An integer operand of a float operation is converted to the nearest
    float; an integer too large for a float raises [OverflowError]. *)
Definition py_float (z : Z) : result spec_float :=
  match binary_normalize 53 1024 z 0 false with
  | S754_infinity _ => Raise OverflowError
  | x => Ok x
  end.

(** [x / y] on floats: a zero divisor raises, anything else is the
    IEEE quotient (an infinity or a NaN included). *)
Definition py_truediv (x y : spec_float) : result spec_float :=
  match y with
  | S754_zero _ => Raise ZeroDivisionError
  | _ => Ok (SFdiv 53 1024 x y)
  end.

(** [int(x)]: truncation towards zero; a NaN raises [ValueError], an
    infinity [OverflowError]. *)
Definition py_int (x : spec_float) : result Z :=
  match x with
  | S754_nan => Raise ValueError
  | S754_infinity _ => Raise OverflowError
  | S754_zero _ => Ok 0
  | S754_finite s m e => Ok (cond_Zopp s (Z.shiftl (Zpos m) e))
  end.

(** The last step of [binary_round_aux]: the rounded mantissa is brought
    back to 53 bits. *)
Definition renormalize (s : bool) (v e : Z) : spec_float :=
  let '(mrs, e') := shr_fexp 53 1024 v e loc_Exact in
  match shr_m mrs with
  | Z0 => S754_zero s
  | Zpos m => if e' <=? 1024 - 53 then S754_finite s m e' else S754_infinity s
  | Zneg _ => S754_nan
  end.

Section Simulation.

Context {D : DType} {L : Library D}.

(** ** Arrays

    A one-dimensional array is a list.  The two-dimensional arrays [y],
    [lhs] and [rhs] of shape (r, c) are kept as their [c] columns, each a
    list of [r] entries: every operation the simulation applies to them
    works down axis 0.  The regressor matrix [z] and its pseudo-inverse are
    kept as lists of rows. *)

Fixpoint zip_with {A B C : Type} (f : A -> B -> C) (xs : list A) (ys : list B)
  : list C :=
  match xs, ys with
  | x :: xs', y :: ys' => f x y :: zip_with f xs' ys'
  | _, _ => []
  end.

(** A dimension passed to an array constructor: negative raises. *)
Definition dim (d : Z) : result nat :=
  if d <? 0 then Raise ValueError else Ok (Z.to_nat d).

(** [zeros(b)]. *)
Definition zeros (b : Z) : result (list F) :=
  k <- dim b ;; Ok (repeat F0 k).

(** [ones(k)]. *)
Definition ones (k : Z) : result (list F) :=
  k <- dim k ;; Ok (repeat F1 k).

(** [arange(lo, hi)]: the integers lo, lo+1, ..., hi-1. *)
Definition arange (lo hi : Z) : list Z :=
  map (fun k => lo + Z.of_nat k) (seq 0 (Z.to_nat (hi - lo))).

(** [m.T] of a matrix given by its rows (as [vstack] builds it). *)
Definition transpose (m : list (list F)) : list (list F) :=
  match m with
  | [] => []
  | r :: _ => map (fun i => map (fun row => nth i row F0) m) (seq 0 (length r))
  end.

(** [cumsum] down one column: out[0] = x[0], out[i] = out[i-1] + x[i]. *)
Fixpoint cumsum_from (acc : F) (xs : list F) : list F :=
  match xs with
  | [] => []
  | x :: r => let a := Fadd acc x in a :: cumsum_from a r
  end.

Definition cumsum (xs : list F) : list F :=
  match xs with
  | [] => []
  | x :: r => x :: cumsum_from x r
  end.

(** [sum] of one column: entries are added in index order; the empty sum
    is zero. *)
Definition sum (xs : list F) : F :=
  match xs with
  | [] => F0
  | x :: r => fold_left Fadd r x
  end.

(** Inner product of a row with a column. *)
Definition dotprod (row col : list F) : F :=
  sum (zip_with Fmul row col).

(** [dot(a, x)]: [a] by its rows, [x] and the product by their columns. *)
Definition dot (a : list (list F)) (x : list (list F)) : list (list F) :=
  map (fun col => map (fun row => dotprod row col) a) x.

(** Elementwise [x - y], [x * y], [x ** 2.0] on arrays kept by columns.
    NumPy evaluates a power with the scalar exponent 2.0 as the square. *)
Definition msub (x y : list (list F)) : list (list F) :=
  zip_with (zip_with Fsub) x y.

Definition mmul (x y : list (list F)) : list (list F) :=
  zip_with (zip_with Fmul) x y.

Definition msquare (x : list (list F)) : list (list F) :=
  map (map (fun v => Fmul v v)) x.

(** [sum(x, 0)]: one sum per column. *)
Definition sum0 (x : list (list F)) : list F := map sum x.

(** [x.shape[0]], the number of rows, read off the first column (with no
    column at all the value is not used by anything below). *)
Definition shape0 (x : list (list F)) : Z :=
  match x with
  | [] => 0
  | c :: _ => Z.of_nat (length c)
  end.

(** ** [standard_normal]

    [rng.standard_normal((r, c))] fills the array in row-major order: entry
    (i, j) is variate number [i * c + j] of those the call draws.  Column
    [j] is therefore a strided read of the stream: start at [pos + j], step
    [c]. *)
Fixpoint strided (key p step : Z) (r : nat) : list F :=
  match r with
  | O => []
  | S r' => gauss key p :: strided key (p + step) step r'
  end.

Fixpoint columns_from (key p step : Z) (r c : nat) : list (list F) :=
  match c with
  | O => []
  | S c' => strided key p step r :: columns_from key (p + 1) step r c'
  end.

Definition standard_normal (rows cols : Z) (rng : RandomState)
  : result (list (list F) * RandomState) :=
  r <- dim rows ;;
  c <- dim cols ;;
  Ok (columns_from (rs_key rng) (rs_pos rng) cols r c,
      mkRandomState (rs_key rng) (rs_pos rng + rows * cols)).

(** ** [adf_simulation] (lines 57-92) *)

(** Lines 66-73: the regressor matrix [z], [None] when no branch is taken. *)
Definition trend_regressors (trend : string) (nobs : Z)
  : result (option (list (list F))) :=
  if String.eqb trend "c"%string then
    k <- dim nobs ;; Ok (Some (repeat [F1] k))
  else if String.eqb trend "ct"%string then
    o <- ones nobs ;;
    Ok (Some (transpose [o; map Fof_Z (arange 1 (nobs + 1))]))
  else if String.eqb trend "ctt"%string then
    let tau := arange 1 (nobs + 1) in
    o <- ones nobs ;;
    Ok (Some (transpose [o; map Fof_Z tau;
                         map (fun t => Fmul (Fof_Z t) (Fof_Z t)) tau]))
  else Ok None.

(** Lines 82-85 for one of [lhs], [rhs]: [x - dot(z, dot(z_inv, x))]. *)
Definition project (z z_inv : list (list F)) (x : list (list F))
  : list (list F) :=
  let beta := dot z_inv x in
  msub x (dot z beta).

(** Lines 80-85. *)
Definition detrend (z : option (list (list F))) (lhs rhs : list (list F))
  : list (list F) * list (list F) :=
  match z with
  | Some z =>
      let z_inv := pinv z in
      (project z z_inv lhs, project z z_inv rhs)
  | None => (lhs, rhs)
  end.

(** Lines 87-92. *)
Definition ar1_statistic (lhs rhs : list (list F)) : list F :=
  let xpy := sum0 (mmul rhs lhs) in
  let xpx := sum0 (msquare rhs) in
  let gamma := zip_with Fdiv xpy xpx in
  let nobs := shape0 lhs in
  map (fun g => Fmul (Fof_Z nobs) (Fsub g F1)) gamma.

(** The function returns the statistic; the state of the generator it
    advanced is returned with it. *)
Definition adf_simulation (n : Z) (trend : string) (b : Z)
  (rng : option RandomState) : result (list F * RandomState) :=
  rng <- match rng with
         | None => RandomState_seed (RandomState_new 0) 0
         | Some r => Ok r
         end ;;
  let nobs := n - 1 in
  z <- trend_regressors trend nobs ;;
  ' (y, rng) <- standard_normal (n + 50) b rng ;;
  let y := map cumsum y in
  let y := map (skipn 50) y in
  let lhs := map (skipn 1) y in
  let rhs := map (@removelast F) y in
  let '(lhs, rhs) := detrend z lhs rhs in
  Ok (ar1_statistic lhs rhs, rng).

(** ** [wrapper] (lines 32-54) *)

(** Line 42, [int(2 ** 20.0 * MAX_MEMORY_SIZE / (8.0 * n))], evaluated as
    Python does, left to right in binary64: [2 ** 20.0] is the float 2^20,
    each integer operand is converted to a float, the two products and the
    quotient are rounded, and [int] truncates the quotient. *)
Definition block_size (max_memory_size n : Z) : result Z :=
  let two_pow_20 := binary_normalize 53 1024 (2 ^ 20) 0 false in
  let eight := binary_normalize 53 1024 8 0 false in
  budget <- py_float max_memory_size ;;
  let bytes := SFmul 53 1024 two_pow_20 budget in
  size <- py_float n ;;
  let row := SFmul 53 1024 eight size in
  ratio <- py_truediv bytes row ;;
  py_int ratio.

(** [range(start, stop, step)] as the list of its values. *)
Definition py_range (start stop step : Z) : result (list Z) :=
  if step =? 0 then Raise ValueError
  else
    let len :=
      if 0 <? step
      then (if start <? stop then (stop - start - 1) / step + 1 else 0)
      else (if stop <? start then (start - stop - 1) / (- step) + 1 else 0) in
    Ok (map (fun k => start + Z.of_nat k * step) (seq 0 (Z.to_nat len))).

(** [res[st:en] = v] for 0 <= st <= en: the slice is clipped to the array
    and must have the length of [v]. *)
Definition assign_slice (res : list F) (st en : Z) (v : list F)
  : result (list F) :=
  let lo := Nat.min (Z.to_nat st) (length res) in
  let hi := Nat.min (Z.to_nat en) (length res) in
  if Nat.eqb (length v) (hi - lo)
  then Ok (firstn lo res ++ v ++ skipn hi res)
  else Raise ValueError.

(** The variables the loop of lines 43-52 updates. *)
Record loop_state : Type := mkLoop {
  ls_rng : RandomState;
  ls_remaining : Z;
  ls_res : list F;
  ls_finished : Z
}.

(** One pass through the loop body (lines 44-52); [j] is not used. *)
Definition wrapper_body (n : Z) (trend : string) (block_size : Z)
  (s : loop_state) (j : Z) : result loop_state :=
  let count := if block_size <? ls_remaining s
               then block_size else ls_remaining s in
  let st := ls_finished s in
  let en := ls_finished s + count in
  ' (stat, rng) <- adf_simulation n trend count (Some (ls_rng s)) ;;
  res <- assign_slice (ls_res s) st en stat ;;
  Ok (mkLoop rng (ls_remaining s - count) res (ls_finished s + count)).

Fixpoint for_each {S : Type} (body : S -> Z -> result S) (js : list Z) (s : S)
  : result S :=
  match js with
  | [] => Ok s
  | j :: js' => s' <- body s j ;; for_each body js' s'
  end.

(** [wrapper], with the module constant [MAX_MEMORY_SIZE] and the entropy
    [RandomState()] reads as explicit arguments. *)
Definition wrapper (max_memory_size entropy : Z)
  (n : Z) (trend : string) (b : Z) (seed : Z) : result (list F) :=
  let rng := RandomState_new entropy in
  rng <- RandomState_seed rng seed ;;
  let remaining := b in
  res <- zeros b ;;
  let finished := 0 in
  bs <- block_size max_memory_size n ;;
  js <- py_range 0 b bs ;;
  s <- for_each (wrapper_body n trend bs) js (mkLoop rng remaining res finished) ;;
  Ok (ls_res s).

(** ** Parts of the two functions the statements below refer to *)

(** Lines 87-92 for one column, [nobs] being [lhs.shape[0]]. *)
Definition column_statistic (nobs : Z) (lhs rhs : list F) : F :=
  let xpy := sum (zip_with Fmul rhs lhs) in
  let xpx := sum (map (fun v => Fmul v v) rhs) in
  let gamma := Fdiv xpy xpx in
  Fmul (Fof_Z nobs) (Fsub gamma F1).

(** Lines 65-85 of [adf_simulation]: [lhs] and [rhs] as they enter the
    regression. *)
Definition detrended_walks (n : Z) (trend : string) (b : Z)
  (rng : RandomState)
  : result (list (list F) * list (list F) * RandomState) :=
  z <- trend_regressors trend (n - 1) ;;
  ' (y, rng) <- standard_normal (n + 50) b rng ;;
  let y := map (skipn 50) (map cumsum y) in
  Ok (detrend z (map (skipn 1) y) (map (@removelast F) y), rng).

(** The part of [wrapper] that follows the computation of the block size. *)
Definition wrapper_blocks (n : Z) (trend : string) (b seed bs : Z)
  (res : list F) : result (list F) :=
  js <- py_range 0 b bs ;;
  s <- for_each (wrapper_body n trend bs) js
         (mkLoop (mkRandomState seed 0) b res 0) ;;
  Ok (ls_res s).

(** ** Pseudo-inverses and means *)

(** The product of two matrices given by their rows. *)
Definition matmul (a b : list (list F)) : list (list F) :=
  map (fun row => map (fun col => dotprod row col) (transpose b)) a.

(** The four Penrose conditions: [p] is the Moore-Penrose pseudo-inverse
    of [a]. *)
Definition moore_penrose (a p : list (list F)) : Prop :=
  matmul (matmul a p) a = a /\
  matmul (matmul p a) p = p /\
  transpose (matmul a p) = matmul a p /\
  transpose (matmul p a) = matmul p a.

(** [mean] of a one-dimensional array. *)
Definition mean (x : list F) : F :=
  Fdiv (sum x) (Fof_Z (Z.of_nat (length x))).

End Simulation.

(** ** An exact instance: canonical rationals *)

Definition Qc_dtype : DType := {|
  F := Qc;
  F0 := Q2Qc 0;
  F1 := Q2Qc 1;
  Fadd := Qcplus;
  Fsub := Qcminus;
  Fmul := Qcmult;
  Fdiv := Qcdiv;
  Fof_Z := fun z => Q2Qc (inject_Z z)
|}.

(** The pseudo-inverse of a one-column matrix [v] is [v^T / (v^T v)] (the
    zero row when [v] is zero).  Wider matrices get the zero matrix of the
    transposed shape: no statement below evaluates [pinv] on one. *)
Definition Qc_pinv (z : list (list Qc)) : list (list Qc) :=
  match z with
  | [] => []
  | [_] :: _ =>
      let v := map (fun row => nth 0 row (Q2Qc 0)) z in
      let s := fold_right Qcplus (Q2Qc 0) (map (fun x => Qcmult x x) v) in
      [map (fun x => Qcdiv x s) v]
  | r :: _ => repeat (repeat (Q2Qc 0) (length z)) (length r)
  end.

(** A fixed stream of small integers standing for the variates. *)
Definition Qc_gauss (key k : Z) : Qc :=
  Q2Qc (inject_Z (((key + k) * (key + k) + k) mod 7 - 3)).

Definition Qc_library : Library Qc_dtype :=
  Build_Library Qc_dtype Qc_pinv Qc_gauss
    (fun key k low high => low + (key + k) mod (high - low + 1)).

(** ** The Statistic Generator as the specification words it

    A second definition, written from the specification's sections 4.1 and
    4.2 and not from the code; [adf_simulation] is compared with it below. *)

Inductive TrendSpec : Type :=
| TNone
| TConstant
| TConstantTrend
| TConstantTrendTrend2.

(** The tags of the four trend specifications. *)
Definition trend_tag (t : TrendSpec) : string :=
  match t with
  | TNone => "nc"
  | TConstant => "c"
  | TConstantTrend => "ct"
  | TConstantTrendTrend2 => "ctt"
  end.

Section Specification.

Context {D : DType} {L : Library D}.

(** Number of columns of the regressor matrix. *)
Definition spec_ncols (t : TrendSpec) : nat :=
  match t with
  | TNone => 0
  | TConstant => 1
  | TConstantTrend => 2
  | TConstantTrendTrend2 => 3
  end.

(** [build(trendSpec, nobs)]: row i (i = 1..nobs) holds 1, i and i^2, as
    far as the trend specification asks. *)
Definition spec_build (t : TrendSpec) (nobs : nat) : list (list F) :=
  map (fun k =>
         let i := Fof_Z (1 + Z.of_nat k) in
         firstn (spec_ncols t) [F1; i; Fmul i i])
      (seq 0 nobs).

(** [project(Z, series)]: [series - Z (pinv(Z) series)], and [series]
    itself when Z has no column. *)
Definition spec_project (t : TrendSpec) (z : list (list F)) (series : list F)
  : list F :=
  match spec_ncols t with
  | O => series
  | S _ =>
      let beta := map (fun row => dotprod row series) (pinv z) in
      zip_with Fsub series (map (fun row => dotprod row beta) z)
  end.

(** The (rows x cols) matrix of draws, by columns: entry (i, j) is draw
    number i * cols + j after the ones already consumed. *)
Definition spec_draws (rng : RandomState) (rows cols : nat)
  : list (list F) :=
  map (fun j =>
         map (fun i => gauss (rs_key rng)
                         (rs_pos rng + Z.of_nat i * Z.of_nat cols + Z.of_nat j))
             (seq 0 rows))
      (seq 0 cols).

(** Running cumulative sum: entry i is the sum of entries 0..i. *)
Definition spec_running_sum (x : list F) : list F :=
  map (fun i => sum (firstn (S i) x)) (seq 0 (length x)).

(** Rows lo..hi (both included) of a column. *)
Definition spec_rows (lo hi : nat) (x : list F) : list F :=
  map (fun i => nth i x F0) (seq lo (S hi - lo)).

(** The statistic of one replication. *)
Definition spec_column_statistic (n : nat) (t : TrendSpec) (col : list F) : F :=
  let path := skipn 50 (spec_running_sum col) in
  let lhs := spec_rows 1 (n - 1) path in
  let rhs := spec_rows 0 (n - 2) path in
  let z := spec_build t (n - 1) in
  let lhs := spec_project t z lhs in
  let rhs := spec_project t z rhs in
  let gamma := Fdiv (sum (zip_with Fmul rhs lhs))
                    (sum (map (fun v => Fmul v v) rhs)) in
  Fmul (Fof_Z (Z.of_nat (n - 1))) (Fsub gamma F1).

(** [simulate(n, trendSpec, b, rngState)]. *)
Definition spec_simulate (n : nat) (t : TrendSpec) (b : nat)
  (rng : RandomState) : list F :=
  map (spec_column_statistic n t) (spec_draws rng (n + 50) b).

End Specification.

(** ** The experiment driver (lines 95-131) *)

Section Driver.

Context {D : DType} {L : Library D}.

Definition trends : list string :=
  ["nc"; "c"; "ct"; "ctt"]%string.

(** [T] after the reversal of line 101. *)
Definition T : list Z :=
  rev [20; 25; 30; 35; 40; 45; 50; 60; 70; 80; 90; 100; 120; 140; 160;
       180; 200; 250; 300; 350; 400; 450; 500; 600; 700; 800; 900;
       1000; 1200; 1400; 2000].

(** [rng.random_integers(low, high, size)] on a generator initialised from
    [key]: an array of [size] integers. *)
Definition random_integers (key low high size : Z) : list Z :=
  map (fun k => rand_int key (Z.of_nat k) low high) (seq 0 (Z.to_nat size)).

(** Lines 104-105. *)
Definition seeds : list Z :=
  random_integers 0 0 (2 ^ 31 - 2) EX_NUM.

(** What the driver does that can be observed from outside, in order. *)
Inductive event : Type :=
| DrawSeeds (s : list Z)
| Call (i : Z) (n : Z) (trend : string) (b : Z) (seed : Z)
| Save (filename : string) (i : Z).

(** Line 120: one call of [wrapper] per sample size, all with [seeds[i]]. *)
Definition dispatch (tr : string) (i : Z) : list event :=
  map (fun t => Call i t tr EX_SIZE (nth (Z.to_nat i) seeds 0)) T.

(** Lines 115-128: one experiment iteration. *)
Definition experiment (tr : string) (i : Z) : list event :=
  let filename := ("adf_z_" ++ tr ++ ".npz")%string in
  dispatch tr i ++ (if i mod 50 =? 0 then [Save filename i] else []).

(** Lines 111-131 for one trend. *)
Definition run_trend (tr : string) : list event :=
  let filename := ("adf_z_" ++ tr ++ ".npz")%string in
  flat_map (experiment tr) (map Z.of_nat (seq 0 (Z.to_nat EX_NUM)))
  ++ [Save filename (EX_NUM - 1)].

(** The main block. *)
Definition main : list event :=
  DrawSeeds seeds :: flat_map run_trend trends.

End Driver.

(** ** The binary64 instance *)

(** IEEE-754 double arithmetic as the kernel implements it.  A Python
    integer is converted through its sign and magnitude. *)
Definition float_of_Z (z : Z) : float :=
  match z with
  | Z0 => PrimFloat.zero
  | Zpos _ => PrimFloat.of_uint63 (Uint63.of_Z z)
  | Zneg _ => PrimFloat.opp (PrimFloat.of_uint63 (Uint63.of_Z (- z)))
  end.

Definition float64 : DType := {|
  F := float;
  F0 := PrimFloat.zero;
  F1 := PrimFloat.one;
  Fadd := PrimFloat.add;
  Fsub := PrimFloat.sub;
  Fmul := PrimFloat.mul;
  Fdiv := PrimFloat.div;
  Fof_Z := float_of_Z
|}.

(** The pseudo-inverse of a one-column matrix in binary64, as for the
    rationals. *)
Definition float_pinv (z : list (list float)) : list (list float) :=
  match z with
  | [] => []
  | [_] :: _ =>
      let v := map (fun row => nth 0 row PrimFloat.zero) z in
      let s := fold_right PrimFloat.add PrimFloat.zero
                 (map (fun x => PrimFloat.mul x x) v) in
      [map (fun x => PrimFloat.div x s) v]
  | r :: _ => repeat (repeat PrimFloat.zero (length z)) (length r)
  end.

Definition float_library : Library float64 :=
  Build_Library float64 float_pinv
    (fun key k => float_of_Z (((key + k) * (key + k) + k) mod 7 - 3))
    (fun key k low high => low + (key + k) mod (high - low + 1)).

(** The float is a zero (of either sign) or not a number. *)
Definition zero_or_nan (x : float) : bool :=
  match Prim2SF x with
  | S754_zero _ | S754_nan => true
  | _ => false
  end.

(** Every entry of the column is a zero. *)
Definition all_zero (xs : list float) : Prop :=
  Forall (fun v => PrimFloat.is_zero v = true) xs.

(** The float is not a number or an infinity. *)
Definition nan_or_infinity (x : float) : bool :=
  match Prim2SF x with
  | S754_nan | S754_infinity _ => true
  | _ => false
  end.

(** A stream of variates whose 51st and 52nd values are 2^-600 and 2^600,
    all others being zero: the square of the first underflows. *)
Definition underflow_gauss (key k : Z) : float :=
  if k =? 50 then 0x1p-600%float
  else if k =? 51 then 0x1p+600%float
  else 0%float.

Definition underflow_library : Library float64 :=
  Build_Library float64 float_pinv underflow_gauss
    (fun key k low high => low).

(** The values of a result over the rationals, without the proofs of
    canonicity they carry. *)
Definition Qc_values (r : result (list Qc)) : result (list Q) :=
  match r with
  | Ok v => Ok (map this v)
  | Raise e => Raise e
  end.

(** The statistic vector of a call of [adf_simulation], as rationals. *)
Definition Qc_statistic (r : result (list Qc * RandomState))
  : result (list Q) :=
  match r with
  | Ok (v, _) => Ok (map this v)
  | Raise e => Raise e
  end.

(** ** The blocked run as a sequence of calls *)

Section BlockedRun.
Context {D : DType} {L : Library D}.

(** The tag takes one of the three branches of lines 67-73. *)
Definition has_regressors (trend : string) : bool :=
  String.eqb trend "c" || String.eqb trend "ct" || String.eqb trend "ctt".

(** The calls of [adf_simulation] a run of [k] blocks makes, one after the
    other on the same generator, each with the block size or with what
    remains, and their statistics laid end to end. *)
Fixpoint blocks (n : Z) (trend : string) (bs : Z) (k : nat)
  (rng : RandomState) (remaining : Z) : result (list F * RandomState) :=
  match k with
  | O => Ok ([], rng)
  | S k' =>
      let count := Z.min bs remaining in
      ' (stat, rng1) <- adf_simulation n trend count (Some rng) ;;
      ' (rest, rng2) <- blocks n trend bs k' rng1 (remaining - count) ;;
      Ok (stat ++ rest, rng2)
  end.

(** The number of passes of [range(0, b, bs)]: b / bs, rounded up. *)
Definition nblocks (b bs : Z) : nat := Z.to_nat ((b + bs - 1) / bs).

End BlockedRun.


(** * Properties *)

(** ** The block size in binary64

    Line 42 is computed on floats.  As long as the budget in bytes and the
    sample size are integers a float holds exactly, the result is the
    quotient of the integers 2^20 * budget and 8 * n, truncated towards
    zero: the rounding of the division never reaches the next integer. *)

Lemma digits2_pos_bounds p :
  2 ^ (Zpos (digits2_pos p) - 1) <= Zpos p < 2 ^ Zpos (digits2_pos p).
Proof.
  induction p as [p IH|p IH|]; cbn [digits2_pos];
    rewrite ?Pos2Z.inj_succ.
  - replace (Z.succ (Zpos (digits2_pos p)) - 1)
      with (Z.succ (Zpos (digits2_pos p) - 1)) by lia.
    rewrite !Z.pow_succ_r by lia. lia.
  - replace (Z.succ (Zpos (digits2_pos p)) - 1)
      with (Z.succ (Zpos (digits2_pos p) - 1)) by lia.
    rewrite !Z.pow_succ_r by lia. lia.
  - cbn. lia.
Qed.

Lemma digits2_pos_unique p d :
  2 ^ (d - 1) <= Zpos p < 2 ^ d -> Zpos (digits2_pos p) = d.
Proof.
  intros [Hlo Hhi]. pose proof (digits2_pos_bounds p) as [Blo Bhi].
  assert (Hd : 0 < d).
  { destruct (Z.lt_ge_cases 0 d); [assumption|].
    destruct d as [|d|d]; cbn in Hhi; lia. }
  assert (d - 1 < Zpos (digits2_pos p)).
  { apply (Z.pow_lt_mono_r_iff 2); lia. }
  assert (Zpos (digits2_pos p) - 1 < d).
  { apply (Z.pow_lt_mono_r_iff 2); lia. }
  lia.
Qed.

Lemma iter_xO_pow m k : Zpos (Pos.iter xO m k) = Zpos m * 2 ^ Zpos k.
Proof.
  induction k as [|k IH] using Pos.peano_ind.
  - cbn. lia.
  - rewrite Pos.iter_succ, Pos2Z.inj_succ, Z.pow_succ_r by lia.
    rewrite Pos2Z.inj_xO, IH. lia.
Qed.

Lemma fexp_normal d : -1021 <= d -> fexp 53 1024 d = d - 53.
Proof. intros H. unfold fexp, emin. lia. Qed.

Lemma binary_round_aux_exact s m e :
  Zpos (digits2_pos m) = 53 -> -1074 <= e <= 971 ->
  binary_round_aux 53 1024 s (Zpos m) e loc_Exact = S754_finite s m e.
Proof.
  intros Hd He. unfold binary_round_aux, shr_fexp.
  cbn [shr_record_of_loc Zdigits2]. rewrite Hd.
  rewrite fexp_normal by lia.
  replace (53 + e - 53 - e) with 0 by lia.
  cbn [shr shr_m loc_of_shr_record round_nearest_even Zdigits2].
  rewrite Hd, fexp_normal by lia.
  replace (53 + e - 53 - e) with 0 by lia.
  cbn [shr shr_m].
  destruct (Z.leb_spec e (1024 - 53)); [reflexivity|lia].
Qed.

(** [float(z)] for an integer below 2^53 is exact. *)
Lemma binary_normalize_exact s p :
  Zpos p < 2 ^ 53 ->
  exists m,
    binary_round 53 1024 s p 0
    = S754_finite s m (Zpos (digits2_pos p) - 53)
    /\ Zpos (digits2_pos m) = 53
    /\ Zpos m = Zpos p * 2 ^ (53 - Zpos (digits2_pos p)).
Proof.
  intros Hp. pose proof (digits2_pos_bounds p) as [Blo Bhi].
  set (d := Zpos (digits2_pos p)) in *.
  assert (Hd : 1 <= d <= 53).
  { split; [unfold d; lia|].
    destruct (Z.le_gt_cases d 53) as [|Hgt]; [assumption|].
    assert (2 ^ 53 <= 2 ^ (d - 1)) by (apply Z.pow_le_mono_r; lia). lia. }
  unfold binary_round, shl_align. fold d.
  rewrite Z.add_0_r, fexp_normal by lia. rewrite Z.sub_0_r.
  destruct (d - 53) as [|k|k] eqn:Ek; [|lia|].
  - exists p. rewrite binary_round_aux_exact by (fold d; lia).
    split; [reflexivity|]. fold d. split; [lia|].
    replace (53 - d) with 0 by lia. lia.
  - exists (Pos.iter xO p k).
    assert (Hm : Zpos (Pos.iter xO p k) = Zpos p * 2 ^ (53 - d)).
    { rewrite iter_xO_pow. do 2 f_equal. lia. }
    assert (Hdm : Zpos (digits2_pos (Pos.iter xO p k)) = 53).
    { apply digits2_pos_unique. rewrite Hm.
      replace (2 ^ (53 - 1)) with (2 ^ (d - 1) * 2 ^ (53 - d))
        by (rewrite <- Z.pow_add_r by lia; f_equal; lia).
      replace (2 ^ 53) with (2 ^ d * 2 ^ (53 - d))
        by (rewrite <- Z.pow_add_r by lia; f_equal; lia).
      assert (0 < 2 ^ (53 - d)) by (apply Z.pow_pos_nonneg; lia).
      nia. }
    rewrite binary_round_aux_exact by lia.
    auto.
Qed.

(** Multiplying by a power of two that is a float changes the exponent only. *)
Lemma SFmul_pow2 k s m e :
  Zpos (digits2_pos m) = 53 -> -1074 <= e + k <= 971 -> -1074 <= k - 52 ->
  SFmul 53 1024 (S754_finite false 4503599627370496 (k - 52)) (S754_finite s m e)
  = S754_finite s m (e + k).
Proof.
  intros Hd He Hk. cbn [SFmul xorb].
  unfold binary_round_aux, shr_fexp.
  assert (HD : Zdigits2 (Zpos (4503599627370496 * m)) = 105).
  { cbn [Zdigits2]. apply digits2_pos_unique.
    pose proof (digits2_pos_bounds m) as B. rewrite Hd in B.
    rewrite Pos2Z.inj_mul. lia. }
  rewrite HD, fexp_normal by lia.
  replace (105 + (k - 52 + e) - 53 - (k - 52 + e)) with 52 by lia.
  cbn [Pos.mul shr_record_of_loc shr iter_pos shr_1 orb shr_m
       loc_of_shr_record round_nearest_even Zdigits2].
  rewrite Hd, fexp_normal by lia.
  replace (53 + (k - 52 + e + 52) - 53 - (k - 52 + e + 52)) with 0 by lia.
  cbn [shr shr_m].
  destruct (Z.leb_spec (k - 52 + e + 52) (1024 - 53)); [|lia].
  f_equal. lia.
Qed.

Lemma pow2_neg_succ e : e <= -1 -> 2 ^ (- e) = 2 ^ (- (e + 1)) * 2.
Proof.
  intros H. replace (- e) with (Z.succ (- (e + 1))) by lia.
  rewrite Z.pow_succ_r by lia. lia.
Qed.

Lemma binary_round_aux_renormalize s m e l :
  binary_round_aux 53 1024 s m e l
  = (let '(mrs, e') := shr_fexp 53 1024 m e l in
     renormalize s (round_nearest_even (shr_m mrs) (loc_of_shr_record mrs)) e').
Proof. reflexivity. Qed.

Lemma py_int_renormalize s v e :
  2 ^ 52 <= v <= 2 ^ 53 -> -1074 <= e <= -1 ->
  py_int (renormalize s v e) = Ok (cond_Zopp s (v / 2 ^ (- e))).
Proof.
  intros Hv He. destruct v as [|p|p]; try lia.
  destruct (Z.eq_dec (Zpos p) (2 ^ 53)) as [E|NE].
  - injection E as ->. unfold renormalize, shr_fexp.
    change (Zdigits2 9007199254740992) with 54.
    rewrite fexp_normal by lia.
    replace (54 + e - 53 - e) with 1 by lia.
    cbn [shr_record_of_loc shr iter_pos shr_1 orb shr_m].
    destruct (Z.leb_spec (e + 1) (1024 - 53)); [|lia].
    cbn [py_int]. do 2 f_equal.
    rewrite Z.shiftl_div_pow2 by lia.
    rewrite (pow2_neg_succ e) by lia.
    change 9007199254740992 with (4503599627370496 * 2).
    rewrite Z.div_mul_cancel_r; [reflexivity| |lia].
    apply Z.pow_nonzero; lia.
  - assert (Hd : Zpos (digits2_pos p) = 53)
      by (apply digits2_pos_unique; lia).
    unfold renormalize, shr_fexp. cbn [Zdigits2]. rewrite Hd.
    rewrite fexp_normal by lia.
    replace (53 + e - 53 - e) with 0 by lia.
    cbn [shr_record_of_loc shr shr_m].
    destruct (Z.leb_spec e (1024 - 53)); [|lia].
    cbn [py_int]. now rewrite Z.shiftl_div_pow2 by lia.
Qed.

Lemma round_nearest_even_range m l :
  m <= round_nearest_even m l <= m + 1.
Proof.
  unfold round_nearest_even.
  destruct l as [|[| |]]; try destruct (Z.even m); lia.
Qed.

Lemma py_int_binary_round_aux s q e l :
  2 ^ 52 <= q < 2 ^ 54 -> -1074 <= e <= -3 ->
  exists v,
    py_int (binary_round_aux 53 1024 s q e l)
    = Ok (cond_Zopp s (v / 2 ^ (- e)))
    /\ 2 * (q / 2) <= v <= q + 1
    /\ (v = q + 1 ->
        2 ^ 53 <= q \/ l = loc_Inexact Eq \/ l = loc_Inexact Gt).
Proof.
  intros Hq He. destruct q as [|p|p]; try lia.
  rewrite binary_round_aux_renormalize. unfold shr_fexp.
  destruct (Z.lt_ge_cases (Zpos p) (2 ^ 53)) as [Hlt|Hge].
  - assert (Hd : Zpos (digits2_pos p) = 53)
      by (apply digits2_pos_unique; lia).
    cbn [Zdigits2]. rewrite Hd, fexp_normal by lia.
    replace (53 + e - 53 - e) with 0 by lia. cbn [shr].
    assert (El : loc_of_shr_record (shr_record_of_loc (Zpos p) l) = l)
      by (destruct l as [|[| |]]; reflexivity).
    assert (Em : shr_m (shr_record_of_loc (Zpos p) l) = Zpos p)
      by (destruct l as [|[| |]]; reflexivity).
    rewrite El, Em.
    pose proof (round_nearest_even_range (Zpos p) l) as Hr.
    exists (round_nearest_even (Zpos p) l).
    split; [apply py_int_renormalize; lia|].
    split.
    + pose proof (Z.div_mod (Zpos p) 2 ltac:(lia)).
      pose proof (Z.mod_pos_bound (Zpos p) 2 ltac:(lia)). lia.
    + intros Hv. right. unfold round_nearest_even in Hv.
      destruct l as [|[| |]]; auto; lia.
  - assert (Hd : Zpos (digits2_pos p) = 54)
      by (apply digits2_pos_unique; lia).
    cbn [Zdigits2]. rewrite Hd, fexp_normal by lia.
    replace (54 + e - 53 - e) with 1 by lia. cbn [shr iter_pos].
    set (mrs := shr_1 (shr_record_of_loc (Zpos p) l)).
    assert (Hp : exists h, (p = xO h \/ p = xI h)).
    { destruct p as [h|h|]; eauto. lia. }
    destruct Hp as [h Hp].
    assert (Em : shr_m mrs = Zpos h).
    { unfold mrs. clear - Hp.
      destruct Hp as [-> | ->], l as [|[| |]]; reflexivity. }
    assert (Hup : round_nearest_even (shr_m mrs) (loc_of_shr_record mrs)
                  = Zpos h
                  \/ (round_nearest_even (shr_m mrs) (loc_of_shr_record mrs)
                      = Zpos h + 1 /\ p = xI h)).
    { unfold mrs. clear - Hp.
      destruct Hp as [-> | ->], l as [|[| |]];
        cbn [shr_record_of_loc shr_1 shr_m orb loc_of_shr_record
             round_nearest_even]; auto;
        destruct (Z.even (Zpos h)); auto. }
    set (v := round_nearest_even (shr_m mrs) (loc_of_shr_record mrs)) in *.
    assert (Hh : Zpos p / 2 = Zpos h).
    { destruct Hp as [-> | ->].
      - rewrite (Pos2Z.inj_xO h). symmetry. apply Z.div_unique with 0; lia.
      - rewrite (Pos2Z.inj_xI h). symmetry. apply Z.div_unique with 1; lia. }
    assert (Hph : Zpos p = 2 * Zpos h \/ Zpos p = 2 * Zpos h + 1).
    { destruct Hp as [-> | ->]; [left|right]; lia. }
    exists (2 * v). split.
    + rewrite py_int_renormalize by lia. do 2 f_equal.
      rewrite (pow2_neg_succ e) by lia.
      rewrite (Z.mul_comm 2 v).
      rewrite Z.div_mul_cancel_r; [reflexivity| |lia].
      apply Z.pow_nonzero; lia.
    + rewrite Hh. split.
      * destruct Hup as [Hv|[Hv ->]]; lia.
      * intros _. left. assumption.
Qed.

(** A remainder placed at or above the midpoint is at least half the
    divisor. *)
Lemma new_location_up n r l :
  new_location n r = l -> l = loc_Inexact Eq \/ l = loc_Inexact Gt ->
  n <= 2 * r.
Proof.
  unfold new_location, new_location_even, new_location_odd.
  intros <- H.
  destruct (Z.even n), (Z.eqb r 0);
    try (destruct H as [H|H]; discriminate H).
  - destruct (Z.compare_spec (2 * r) n);
      destruct H as [H|H]; try discriminate H; lia.
  - destruct (Z.compare_spec (2 * r + 1) n);
      destruct H as [H|H]; try discriminate H; lia.
Qed.

(** The quotient of two floats with 53-bit mantissas: the integer
    quotient of the mantissas on 53 or 54 bits, then rounded. *)
Lemma SFdiv_finite sx mx ex sy my ey :
  Zpos (digits2_pos mx) = 53 -> Zpos (digits2_pos my) = 53 ->
  -1021 <= ex - ey ->
  SFdiv 53 1024 (S754_finite sx mx ex) (S754_finite sy my ey)
  = binary_round_aux 53 1024 (xorb sx sy)
      (Zpos mx * 2 ^ 53 / Zpos my) (ex - ey - 53)
      (new_location (Zpos my) ((Zpos mx * 2 ^ 53) mod Zpos my)).
Proof.
  intros Hx Hy He. cbn [SFdiv]. unfold SFdiv_core_binary.
  cbn [Zdigits2]. rewrite Hx, Hy.
  rewrite fexp_normal by lia.
  replace (Z.min (53 + ex - (53 + ey) - 53) (ex - ey)) with (ex - ey - 53)
    by lia.
  replace (ex - ey - (ex - ey - 53)) with 53 by lia.
  cbv iota beta.
  rewrite Z.shiftl_mul_pow2 by lia.
  unfold Z.div, Z.modulo.
  destruct (Z.div_eucl (Zpos mx * 2 ^ 53) (Zpos my)) as [q r].
  reflexivity.
Qed.

(** The integer part of a correctly rounded quotient.  [q] is the quotient
    [K / n] scaled by [N], [v] its rounding: up only when the remainder is
    at least half of [n] or when [q] already has a bit too many. *)
Lemma trunc_rounded_quotient K n N v :
  0 <= K < 2 ^ 53 -> 0 < n -> 0 < N -> N mod 2 = 0 -> n < 2 * N ->
  2 * (K * N / n / 2) <= v <= K * N / n + 1 ->
  (v = K * N / n + 1 -> 2 ^ 53 <= K * N / n \/ n <= 2 * ((K * N) mod n)) ->
  v / N = K / n.
Proof.
  intros HK Hn HN Heven HnN Hv Hup.
  pose proof (Z.div_mod (K * N) n ltac:(lia)) as Eq.
  pose proof (Z.mod_pos_bound (K * N) n Hn) as Hr.
  pose proof (Z.div_mod K n ltac:(lia)) as Ek.
  pose proof (Z.mod_pos_bound K n Hn) as Hf.
  pose proof (Z.div_mod N 2 ltac:(lia)) as EN. rewrite Heven in EN.
  set (q := K * N / n) in *. set (r := (K * N) mod n) in *.
  set (k := K / n) in *. set (f := K mod n) in *.
  set (N2 := N / 2) in *.
  pose proof (Z.div_mod q 2 ltac:(lia)) as Eq2.
  pose proof (Z.mod_pos_bound q 2 ltac:(lia)) as Hq2.
  set (q2 := q / 2) in *. set (b := q mod 2) in *.
  assert (Hk0 : 0 <= k) by (apply Z.div_pos; lia).
  assert (Hlo : k * N <= q).
  { assert (n * (k * N) < n * (q + 1)) by nia.
    apply Z.mul_lt_mono_pos_l in H; lia. }
  assert (Hhi : q < (k + 1) * N).
  { assert (n * q < n * ((k + 1) * N)) by nia.
    apply Z.mul_lt_mono_pos_l in H; lia. }
  assert (Hlo2 : k * N <= 2 * q2).
  { assert (k * N2 <= q2) by nia. nia. }
  assert (Hne : v <> (k + 1) * N).
  { intros E. assert (Ev : v = q + 1) by lia.
    assert (Er : (n - f) * N = n - r) by nia.
    assert (HNle : N <= n - r) by nia.
    destruct (Hup Ev) as [Hbig|Hhalf].
    - assert (n * q <= n * K) by nia.
      apply Z.mul_le_mono_pos_l in H; lia.
    - lia. }
  symmetry. apply Z.div_unique with (v - k * N); lia.
Qed.

Lemma py_float_zero : py_float 0 = Ok (S754_zero false).
Proof. reflexivity. Qed.

(** The float of a non-zero integer below 2^53 in absolute value: a
    53-bit mantissa [m] and an exponent [- sh] with [m = |z| * 2^sh]. *)
Lemma py_float_exact z :
  z <> 0 -> Z.abs z < 2 ^ 53 ->
  exists m sh,
    py_float z = Ok (S754_finite (z <? 0) m (- sh))
    /\ 0 <= sh <= 52
    /\ Zpos (digits2_pos m) = 53
    /\ Zpos m = Z.abs z * 2 ^ sh
    /\ Z.abs z < 2 ^ (53 - sh).
Proof.
  intros Hz Hb. unfold py_float, binary_normalize.
  assert (H : forall s p, Zpos p < 2 ^ 53 ->
            exists m sh,
              match binary_round 53 1024 s p 0 with
              | S754_infinity _ => Raise OverflowError
              | x => Ok x
              end = Ok (S754_finite s m (- sh))
              /\ 0 <= sh <= 52
              /\ Zpos (digits2_pos m) = 53
              /\ Zpos m = Zpos p * 2 ^ sh
              /\ Zpos p < 2 ^ (53 - sh)).
  { intros s p Hp.
    destruct (binary_normalize_exact s p Hp) as (m & -> & Hd & Hm).
    pose proof (digits2_pos_bounds p) as [Blo Bhi].
    assert (Zpos (digits2_pos p) <= 53).
    { destruct (Z.le_gt_cases (Zpos (digits2_pos p)) 53) as [|Hgt];
        [assumption|].
      assert (2 ^ 53 <= 2 ^ (Zpos (digits2_pos p) - 1))
        by (apply Z.pow_le_mono_r; lia). lia. }
    exists m, (53 - Zpos (digits2_pos p)).
    split; [do 2 f_equal; lia|].
    split; [lia|]. split; [assumption|]. split; [assumption|].
    replace (53 - (53 - Zpos (digits2_pos p))) with (Zpos (digits2_pos p))
      by lia.
    assumption. }
  destruct z as [|p|p]; [contradiction| |]; apply H; assumption.
Qed.

(** Line 42 on operands a float holds exactly: the quotient of the two
    integers, truncated towards zero. *)
Lemma block_size_exact m n :
  Z.abs (2 ^ 20 * m) < 2 ^ 53 -> n <> 0 -> Z.abs n < 2 ^ 53 ->
  block_size m n = Ok (Z.quot (2 ^ 20 * m) (8 * n)).
Proof.
  intros Hm Hn0 Hn. unfold block_size. cbv zeta.
  destruct (py_float_exact n Hn0 Hn) as (mn & sn & -> & Hsn & Hdn & Emn & Bn).
  assert (Eden : SFmul 53 1024 (binary_normalize 53 1024 8 0 false)
                   (S754_finite (n <? 0) mn (- sn))
                 = S754_finite (n <? 0) mn (- sn + 3)).
  { apply (SFmul_pow2 3); lia. }
  destruct (Z.eq_dec m 0) as [->|Hm0].
  - rewrite py_float_zero. cbn [bind]. rewrite Eden. reflexivity.
  - destruct (py_float_exact m Hm0 ltac:(lia))
      as (mm & sm & -> & Hsm & Hdm & Emm & Bm).
    cbn [bind].
    assert (Hm33 : Z.abs m < 2 ^ 33).
    { rewrite Z.abs_mul in Hm. change (Z.abs (2 ^ 20)) with (2 ^ 20) in Hm.
      change (2 ^ 53) with (2 ^ 20 * 2 ^ 33) in Hm.
      apply Z.mul_lt_mono_pos_l in Hm; [assumption|reflexivity]. }
    assert (Hsm20 : 20 <= sm).
    { destruct (Z.lt_ge_cases sm 20) as [Hlt|]; [|assumption].
      pose proof (digits2_pos_bounds mm) as B. rewrite Hdm in B.
      assert (Hp : 0 < 2 ^ sm <= 2 ^ 19)
        by (split; [apply Z.pow_pos_nonneg; lia
                   |apply Z.pow_le_mono_r; lia]).
      change (2 ^ (53 - 1)) with (2 ^ 33 * 2 ^ 19) in B.
      assert (Z.abs m * 2 ^ sm < 2 ^ 33 * 2 ^ 19); [|lia].
      apply Z.le_lt_trans with (Z.abs m * 2 ^ 19).
      - apply Z.mul_le_mono_nonneg_l; lia.
      - apply Z.mul_lt_mono_pos_r; [reflexivity|assumption]. }
    assert (Enum : SFmul 53 1024
                     (binary_normalize 53 1024 (2 ^ 20) 0 false)
                     (S754_finite (m <? 0) mm (- sm))
                   = S754_finite (m <? 0) mm (- sm + 20)).
    { apply (SFmul_pow2 20); lia. }
    rewrite Enum, Eden. cbn [py_truediv bind].
    rewrite SFdiv_finite by (assumption || lia).
    pose proof (digits2_pos_bounds mm) as Bmm. rewrite Hdm in Bmm.
    pose proof (digits2_pos_bounds mn) as Bmn. rewrite Hdn in Bmn.
    set (q := Zpos mm * 2 ^ 53 / Zpos mn).
    set (r := (Zpos mm * 2 ^ 53) mod Zpos mn).
    assert (Hq : 2 ^ 52 <= q < 2 ^ 54).
    { unfold q. split.
      - apply Z.div_le_lower_bound; lia.
      - apply Z.div_lt_upper_bound; lia. }
    destruct (py_int_binary_round_aux (xorb (m <? 0) (n <? 0)) q
                (- sm + 20 - (- sn + 3) - 53)
                (new_location (Zpos mn) r) Hq ltac:(lia))
      as (v & -> & Hv & Hup).
    f_equal.
    set (K := 2 ^ 17 * Z.abs m). set (a := Z.abs n).
    set (N := 2 ^ (- (- sm + 20 - (- sn + 3) - 53))).
    assert (HN : N = 2 ^ (sm - 20) * 2 ^ (56 - sn)).
    { unfold N. rewrite <- Z.pow_add_r by lia. f_equal. lia. }
    assert (Ha : 0 < a) by (unfold a; lia).
    assert (Hpsn : 0 < 2 ^ sn) by (apply Z.pow_pos_nonneg; lia).
    assert (EKN : Zpos mm * 2 ^ 53 = K * N * 2 ^ sn).
    { rewrite Emm. unfold K. rewrite HN.
      replace (2 ^ 53) with (2 ^ 17 * 2 ^ 36) by reflexivity.
      replace (2 ^ sm) with (2 ^ (sm - 20) * 2 ^ 20)
        by (rewrite <- Z.pow_add_r by lia; f_equal; lia).
      assert (E : 2 ^ (56 - sn) * 2 ^ sn = 2 ^ 56)
        by (rewrite <- Z.pow_add_r by lia; f_equal; lia).
      change (2 ^ 56) with (2 ^ 20 * 2 ^ 36) in E.
      nia. }
    assert (Eq : q = K * N / a).
    { unfold q. rewrite EKN, Emn. fold a.
      apply Z.div_mul_cancel_r; lia. }
    assert (Er : r = (K * N) mod a * 2 ^ sn).
    { unfold r. rewrite EKN, Emn. fold a.
      apply Z.mul_mod_distr_r; lia. }
    assert (Hquot : v / N = K / a).
    { apply trunc_rounded_quotient.
      - unfold K. lia.
      - assumption.
      - unfold N. apply Z.pow_pos_nonneg; lia.
      - rewrite HN.
        replace (2 ^ (56 - sn)) with (2 ^ (55 - sn) * 2)
          by (replace (56 - sn) with (Z.succ (55 - sn)) by lia;
              rewrite Z.pow_succ_r by lia; lia).
        rewrite Z.mul_assoc. apply Z.mod_mul. lia.
      - rewrite HN.
        assert (1 <= 2 ^ (sm - 20))
          by (assert (0 < 2 ^ (sm - 20)) by (apply Z.pow_pos_nonneg; lia);
              lia).
        assert (2 ^ (53 - sn) <= 2 ^ (56 - sn))
          by (apply Z.pow_le_mono_r; lia).
        fold a in Bn. nia.
      - rewrite <- Eq. assumption.
      - rewrite <- Eq. intros Ev.
        destruct (Hup Ev) as [Hbig|Hl]; [left; assumption|right].
        pose proof (new_location_up _ _ _ eq_refl Hl) as Hhalf.
        rewrite Er, Emn in Hhalf. fold a in Hhalf. nia. }
    rewrite Hquot.
    rewrite Z.quot_div by lia.
    assert (Eabs : Z.abs (2 ^ 20 * m) / Z.abs (8 * n) = K / a).
    { rewrite !Z.abs_mul. change (Z.abs (2 ^ 20)) with (2 ^ 17 * 8).
      change (Z.abs 8) with 8. fold a.
      rewrite <- Z.mul_assoc, (Z.mul_comm 8 (Z.abs m)), Z.mul_assoc.
      fold K. rewrite (Z.mul_comm 8 a).
      apply Z.div_mul_cancel_r; lia. }
    rewrite Eabs.
    assert (0 <= K / a) by (apply Z.div_pos; unfold K; lia).
    destruct (Z.ltb_spec m 0), (Z.ltb_spec n 0); cbn [xorb cond_Zopp];
      rewrite ?Z.sgn_mul;
      repeat match goal with
             | H : ?x < 0 |- context [Z.sgn ?x] => rewrite (Z.sgn_neg x H)
             | H : 0 <= ?x |- context [Z.sgn ?x] =>
                 rewrite (Z.sgn_pos x) by lia
             end;
      change (Z.sgn (2 ^ 20)) with 1; change (Z.sgn 8) with 1; lia.
Qed.

(** A zero sample size: the division raises, the budget being any integer
    a float holds. *)
Lemma block_size_zero_division m :
  Z.abs m < 2 ^ 53 -> block_size m 0 = Raise ZeroDivisionError.
Proof.
  intros Hm. unfold block_size. cbv zeta.
  destruct (Z.eq_dec m 0) as [->|Hm0]; [reflexivity|].
  destruct (py_float_exact m Hm0 Hm) as (mm & sm & -> & _).
  reflexivity.
Qed.

Section Properties.

Context {D : DType} {L : Library D}.

(** ** The element-wise operations keep shapes *)

Lemma zip_with_length {A B C : Type} (f : A -> B -> C) xs ys :
  length (zip_with f xs ys) = Nat.min (length xs) (length ys).
Proof.
  revert ys; induction xs as [|x xs IH]; intros [|y ys]; simpl; auto.
Qed.

Lemma zip_with_map {A B C A' B' : Type} (f : A -> B -> C)
  (g : A' -> A) (h : B' -> B) xs ys :
  zip_with f (map g xs) (map h ys) = zip_with (fun a b => f (g a) (h b)) xs ys.
Proof.
  revert ys; induction xs as [|x xs IH]; intros [|y ys]; simpl; auto.
  now rewrite IH.
Qed.

Lemma zip_with_diag {A C : Type} (f : A -> A -> C) xs :
  zip_with f xs xs = map (fun a => f a a) xs.
Proof.
  induction xs as [|x xs IH]; simpl; auto. now rewrite IH.
Qed.

Lemma strided_length key p step r : length (strided key p step r) = r.
Proof.
  revert p; induction r as [|r IH]; intros p; simpl; auto.
Qed.

Lemma columns_from_length key p step r c :
  length (columns_from key p step r c) = c.
Proof.
  revert p; induction c as [|c IH]; intros p; simpl; auto.
Qed.

Lemma detrend_length z lhs rhs :
  length (fst (detrend z lhs rhs)) = length lhs /\
  length (snd (detrend z lhs rhs)) = length rhs.
Proof.
  destruct z as [z|]; simpl; auto.
  cbv beta zeta delta [project msub dot].
  rewrite !zip_with_length, !length_map. lia.
Qed.

Lemma ar1_statistic_length lhs rhs :
  length (ar1_statistic lhs rhs) = Nat.min (length lhs) (length rhs).
Proof.
  cbv beta zeta delta [ar1_statistic sum0 mmul msquare].
  repeat rewrite ?length_map, ?zip_with_length.
  lia.
Qed.

(** ** The block size and the range of the loop *)

Lemma block_size_pos m n :
  0 <= m -> 2 ^ 20 * m < 2 ^ 53 -> 0 < n -> n < 2 ^ 53 ->
  block_size m n = Ok (2 ^ 20 * m / (8 * n)).
Proof.
  intros Hm Hm53 Hn Hn53. rewrite block_size_exact by lia.
  rewrite Z.quot_div_nonneg by lia. reflexivity.
Qed.

Lemma RandomState_seed_valid rng seed :
  0 <= seed < 2 ^ 32 -> RandomState_seed rng seed = Ok (mkRandomState seed 0).
Proof.
  intros H. unfold RandomState_seed.
  destruct (Z.ltb_spec seed 0); [lia|].
  destruct (Z.ltb_spec (2 ^ 32 - 1) seed); [lia|reflexivity].
Qed.

Lemma RandomState_seed_invalid rng seed :
  seed < 0 \/ 2 ^ 32 <= seed -> RandomState_seed rng seed = Raise ValueError.
Proof.
  intros H. unfold RandomState_seed.
  destruct (Z.ltb_spec seed 0); [reflexivity|].
  destruct (Z.ltb_spec (2 ^ 32 - 1) seed); [reflexivity|lia].
Qed.

Lemma py_range_zero_step start stop : py_range start stop 0 = Raise ValueError.
Proof. reflexivity. Qed.

Lemma py_range_single stop step :
  0 < stop -> stop <= step -> py_range 0 stop step = Ok [0].
Proof.
  intros H1 H2. unfold py_range.
  destruct (Z.eqb_spec step 0); [lia|].
  destruct (Z.ltb_spec 0 step); [|lia].
  destruct (Z.ltb_spec 0 stop); [|lia].
  rewrite Z.sub_0_r, Z.div_small by lia. reflexivity.
Qed.

Lemma py_range_empty step : 0 < step -> py_range 0 0 step = Ok [].
Proof.
  intros H. unfold py_range.
  destruct (Z.eqb_spec step 0); [lia|].
  destruct (Z.ltb_spec 0 step); [|lia].
  reflexivity.
Qed.

(** With a block at least as long as what remains, the body draws all
    that remains, whatever the block size. *)
Lemma wrapper_body_last n trend bs s j :
  ls_remaining s <= bs ->
  wrapper_body n trend bs s j
  = wrapper_body n trend (ls_remaining s) s 0.
Proof.
  intros H. unfold wrapper_body.
  destruct (Z.ltb_spec bs (ls_remaining s)); [lia|].
  rewrite Z.ltb_irrefl. reflexivity.
Qed.

Lemma RandomState_seed_raises rng seed err :
  RandomState_seed rng seed = Raise err -> err = ValueError.
Proof.
  unfold RandomState_seed.
  destruct ((seed <? 0) || (2 ^ 32 - 1 <? seed)); congruence.
Qed.

Lemma wrapper_unfold m e n trend b seed :
  wrapper m e n trend b seed
  = (_ <- RandomState_seed (RandomState_new e) seed ;;
     res <- zeros b ;; bs <- block_size m n ;;
     wrapper_blocks n trend b seed bs res).
Proof.
  unfold wrapper, RandomState_seed.
  destruct ((seed <? 0) || (2 ^ 32 - 1 <? seed)); reflexivity.
Qed.

Lemma wrapper_seeded m e n trend b seed :
  0 <= seed < 2 ^ 32 ->
  wrapper m e n trend b seed
  = (res <- zeros b ;; bs <- block_size m n ;;
     wrapper_blocks n trend b seed bs res).
Proof.
  intros H. now rewrite wrapper_unfold, RandomState_seed_valid.
Qed.

Lemma wrapper_blocks_single n trend b seed bs res :
  0 <= b -> 1 <= bs -> b <= bs ->
  wrapper_blocks n trend b seed bs res
  = wrapper_blocks n trend b seed (Z.max 1 b) res.
Proof.
  intros Hb Hbs Hle. unfold wrapper_blocks.
  destruct (Z.eq_dec b 0) as [->|Hnz].
  - rewrite !py_range_empty by lia. reflexivity.
  - rewrite !py_range_single by lia. cbn [bind for_each].
    rewrite (wrapper_body_last n trend bs) by (simpl; lia).
    rewrite (wrapper_body_last n trend (Z.max 1 b)) by (simpl; lia).
    reflexivity.
Qed.

End Properties.

Section Claims.

Context {D : DType} {L : Library D}.

Lemma dim_nonneg d : 0 <= d -> dim d = Ok (Z.to_nat d).
Proof.
  intros H. unfold dim. destruct (Z.ltb_spec d 0); [lia|reflexivity].
Qed.

Lemma dim_neg d : d < 0 -> dim d = Raise ValueError.
Proof.
  intros H. unfold dim. destruct (Z.ltb_spec d 0); [reflexivity|lia].
Qed.

Lemma trend_regressors_other trend nobs :
  trend <> "c"%string -> trend <> "ct"%string -> trend <> "ctt"%string ->
  trend_regressors trend nobs = Ok None.
Proof.
  intros H1 H2 H3. unfold trend_regressors.
  apply String.eqb_neq in H1, H2, H3. now rewrite H1, H2, H3.
Qed.

Lemma trend_regressors_ok trend nobs :
  0 <= nobs -> exists z, trend_regressors trend nobs = Ok z.
Proof.
  intros H. unfold trend_regressors, ones.
  rewrite (dim_nonneg nobs H). cbn [bind].
  repeat match goal with |- context [if ?c then _ else _] => destruct c end;
    eauto.
Qed.

Lemma adf_simulation_ok n trend b rng z :
  trend_regressors trend (n - 1) = Ok z -> 0 <= n + 50 -> 0 <= b ->
  exists stat,
    adf_simulation n trend b (Some rng)
    = Ok (stat, mkRandomState (rs_key rng) (rs_pos rng + (n + 50) * b))
    /\ length stat = Z.to_nat b.
Proof.
  intros Hz Hn Hb. unfold adf_simulation, standard_normal.
  rewrite Hz, (dim_nonneg _ Hn), (dim_nonneg _ Hb). cbn [bind].
  match goal with |- context [detrend ?z ?l ?r] =>
    pose proof (detrend_length z l r) as [Hl Hr];
    destruct (detrend z l r) as [lhs rhs] end.
  cbn [fst snd] in Hl, Hr. eexists; split; [reflexivity|].
  rewrite ar1_statistic_length, Hl, Hr.
  rewrite !length_map, columns_from_length. lia.
Qed.

(** C3 (as amended): for a budget and a sample size that binary64 holds
    exactly (0 <= 2^20 * budget < 2^53 and 0 < n < 2^53) the float
    computation of line 42 gives floor(2^20 * budget / (8 * n)), with no
    clamp: it is at least 1 exactly when 8 * n <= 2^20 * budget, and when
    it is zero [wrapper] raises [ValueError] (from [range], if the seed
    check or [zeros] has not raised it before) and simulates nothing. *)
Theorem block_size_floor_unclamped (m n : Z) :
  0 <= m -> 2 ^ 20 * m < 2 ^ 53 -> 0 < n -> n < 2 ^ 53 ->
  block_size m n = Ok (2 ^ 20 * m / (8 * n)) /\
  (1 <= 2 ^ 20 * m / (8 * n) <-> 8 * n <= 2 ^ 20 * m) /\
  (2 ^ 20 * m < 8 * n ->
   forall e trend b seed, wrapper m e n trend b seed = Raise ValueError).
Proof.
  intros Hm Hm53 Hn Hn53. split; [now apply block_size_pos|]. split.
  - split; intros H.
    + destruct (Z.le_gt_cases (8 * n) (2 ^ 20 * m)) as [|Hlt]; [assumption|].
      rewrite Z.div_small in H by lia. lia.
    + apply Z.div_le_lower_bound; lia.
  - intros Hlt e trend b seed. rewrite wrapper_unfold.
    destruct (RandomState_seed (RandomState_new e) seed) as [rng|err] eqn:Es;
      [|now rewrite (RandomState_seed_raises _ _ _ Es)].
    cbn [bind]. unfold zeros. destruct (Z.lt_ge_cases b 0) as [Hb|Hb].
    + now rewrite dim_neg.
    + rewrite dim_nonneg by assumption. cbn [bind].
      rewrite block_size_pos, Z.div_small by lia. reflexivity.
Qed.

(** C4 (as amended): a trend tag other than 'c', 'ct' and 'ctt' (the tag
    'nc' and every unrecognised tag alike) selects no regressor matrix:
    [adf_simulation] then does what it does for 'nc', and returns a
    statistic vector whenever the array dimensions are not negative. *)
Theorem unrecognised_trend_runs_as_nc (n : Z) (trend : string) (b : Z)
  (rng : RandomState) :
  trend <> "c"%string -> trend <> "ct"%string -> trend <> "ctt"%string ->
  adf_simulation n trend b (Some rng) = adf_simulation n "nc" b (Some rng) /\
  (0 <= n + 50 -> 0 <= b ->
   exists r, adf_simulation n trend b (Some rng) = Ok r).
Proof.
  intros H1 H2 H3. split.
  - unfold adf_simulation. now rewrite trend_regressors_other.
  - intros Hn Hb.
    destruct (adf_simulation_ok n trend b rng None) as (stat & E & _);
      auto using trend_regressors_other.
    eauto.
Qed.

(** C7: for the trend 'nc' there is no regressor matrix and no projection:
    [lhs] and [rhs] enter the regression as the random-walk generation
    produced them. *)
Theorem nc_detrending_is_identity (n b : Z) (rng : RandomState) :
  trend_regressors "nc" (n - 1) = Ok None /\
  (forall lhs rhs, detrend None lhs rhs = (lhs, rhs)) /\
  adf_simulation n "nc" b (Some rng)
  = (' (y, rng') <- standard_normal (n + 50) b rng ;;
     let y := map (skipn 50) (map cumsum y) in
     Ok (ar1_statistic (map (skipn 1) y) (map (@removelast F) y), rng')).
Proof.
  split; [reflexivity|]. split; [reflexivity|].
  unfold adf_simulation. cbn [trend_regressors String.eqb Ascii.eqb Bool.eqb bind].
  destruct (standard_normal (n + 50) b rng) as [[y rng']|e]; reflexivity.
Qed.

(** C9: for n >= 2, b >= 1 and one of the four trends, [adf_simulation]
    returns a vector of exactly [b] entries, and the regressor matrix of
    'ctt' has n - 1 rows of 3 entries. *)
Theorem adf_simulation_shapes (n : Z) (trend : string) (b : Z)
  (rng : RandomState) :
  2 <= n -> 1 <= b -> In trend trends ->
  (exists stat rng',
     adf_simulation n trend b (Some rng) = Ok (stat, rng')
     /\ Z.of_nat (length stat) = b) /\
  (exists z,
     trend_regressors "ctt" (n - 1) = Ok (Some z)
     /\ Z.of_nat (length z) = n - 1
     /\ Forall (fun row => length row = 3%nat) z).
Proof.
  intros Hn Hb Ht. split.
  - destruct (trend_regressors_ok trend (n - 1)) as [z Hz]; [lia|].
    destruct (adf_simulation_ok n trend b rng z Hz) as (stat & E & Hlen);
      try lia.
    exists stat; eexists; split; [exact E|]. rewrite Hlen. lia.
  - unfold trend_regressors, ones. cbn [String.eqb Ascii.eqb Bool.eqb].
    rewrite dim_nonneg by lia. cbn [bind transpose].
    eexists; split; [reflexivity|]. rewrite length_map, length_seq, repeat_length.
    split; [lia|].
    apply Forall_forall. intros row Hrow. apply in_map_iff in Hrow.
    destruct Hrow as (i & <- & _). reflexivity.
Qed.

(** C1 (as amended): two memory budgets whose block sizes are both at
    least 1 and agree once capped at [b] (equal block sizes, or both at
    least [b], the single-block case) give the same vector. *)
Theorem wrapper_same_capped_block_size (m1 m2 e n : Z) (trend : string)
  (b seed bs1 bs2 : Z) :
  block_size m1 n = Ok bs1 -> block_size m2 n = Ok bs2 ->
  1 <= bs1 -> 1 <= bs2 -> Z.min bs1 b = Z.min bs2 b ->
  wrapper m1 e n trend b seed = wrapper m2 e n trend b seed.
Proof.
  intros E1 E2 H1 H2 Hmin. rewrite !wrapper_unfold, E1, E2.
  destruct (RandomState_seed (RandomState_new e) seed) as [rng|err];
    [cbn [bind]|reflexivity].
  unfold zeros. destruct (Z.lt_ge_cases b 0) as [Hb|Hb].
  - now rewrite dim_neg.
  - rewrite dim_nonneg by assumption. cbn [bind].
    destruct (Z.lt_ge_cases bs1 b) as [Hlt|Hge].
    + assert (bs2 = bs1) by lia. now subst.
    + rewrite (wrapper_blocks_single n trend b seed bs1) by lia.
      rewrite (wrapper_blocks_single n trend b seed bs2) by lia.
      reflexivity.
Qed.

End Claims.

Section DriverClaims.

Context {D : DType} {L : Library D}.

Lemma in_experiment ev tr i :
  In ev (experiment tr i) ->
  (exists t, In t T /\ ev = Call i t tr EX_SIZE (nth (Z.to_nat i) seeds 0))
  \/ (exists f, ev = Save f i).
Proof.
  unfold experiment, dispatch. intros H. apply in_app_or in H.
  destruct H as [H|H].
  - apply in_map_iff in H. destruct H as (t & <- & Ht). left; eauto.
  - destruct (i mod 50 =? 0); [|contradiction].
    destruct H as [<-|[]]. right; eauto.
Qed.

Lemma in_run_trend ev tr :
  In ev (run_trend tr) ->
  (exists i t, 0 <= i < EX_NUM /\ In t T
               /\ ev = Call i t tr EX_SIZE (nth (Z.to_nat i) seeds 0))
  \/ (exists f i, ev = Save f i).
Proof.
  unfold run_trend. intros H. apply in_app_or in H. destruct H as [H|H].
  - apply in_flat_map in H. destruct H as (i & Hi & Hev).
    apply in_map_iff in Hi. destruct Hi as (k & <- & Hk).
    apply in_seq in Hk.
    apply in_experiment in Hev. destruct Hev as [(t & Ht & ->)|(f & ->)].
    + left. exists (Z.of_nat k), t. repeat split; auto; lia.
    + right; eauto.
  - destruct H as [<-|[]]. right; eauto.
Qed.

(** C6: the seed schedule has exactly [EX_NUM] entries; it is the first
    thing the driver does and it is never drawn again; and every call
    dispatched in iteration [i], for every sample size of [T], carries the
    one seed [seeds[i]]. *)
Theorem seed_schedule_fixed_and_shared :
  Z.of_nat (length seeds) = EX_NUM /\
  (exists rest,
     main = DrawSeeds seeds :: rest /\ forall s, ~ In (DrawSeeds s) rest) /\
  (forall i n tr b s,
     In (Call i n tr b s) main ->
     0 <= i < EX_NUM /\ In n T /\ In tr trends /\ b = EX_SIZE
     /\ s = nth (Z.to_nat i) seeds 0) /\
  (forall tr i t,
     In tr trends -> 0 <= i < EX_NUM -> In t T ->
     In (Call i t tr EX_SIZE (nth (Z.to_nat i) seeds 0)) main).
Proof.
  split; [|split; [|split]].
  - unfold seeds, random_integers. rewrite length_map, length_seq.
    reflexivity.
  - eexists; split; [reflexivity|]. intros s H.
    apply in_flat_map in H. destruct H as (tr & _ & H).
    apply in_run_trend in H.
    destruct H as [(i & t & _ & _ & E)|(f & i & E)]; discriminate.
  - intros i n tr b s H. destruct H as [H|H]; [discriminate|].
    apply in_flat_map in H. destruct H as (tr' & Htr & H).
    apply in_run_trend in H.
    destruct H as [(i' & t & Hi & Ht & E)|(f & i' & E)]; [|discriminate].
    injection E as -> -> -> -> ->. auto.
  - intros tr i t Htr Hi Ht. right. apply in_flat_map. exists tr.
    split; [assumption|]. unfold run_trend. apply in_or_app. left.
    apply in_flat_map. exists i. split.
    + apply in_map_iff. exists (Z.to_nat i). split; [lia|].
      apply in_seq. lia.
    + unfold experiment, dispatch. apply in_or_app. left.
      apply in_map_iff. eauto.
Qed.

End DriverClaims.

(** ** [adf_simulation] against the specification's algorithm *)

Section Refinement.

Context {D : DType} {L : Library D}.

Lemma map_const_seq {A : Type} (a : A) s k :
  map (fun _ => a) (seq s k) = repeat a k.
Proof.
  revert s; induction k as [|k IH]; intros s; simpl; auto. now rewrite IH.
Qed.

Lemma zip_with_map_r {A B C : Type} (f : A -> B -> C) (g : A -> B) xs :
  zip_with f xs (map g xs) = map (fun x => f x (g x)) xs.
Proof.
  induction xs as [|x xs IH]; simpl; auto. now rewrite IH.
Qed.

Lemma map_nth_seq {A : Type} (d : A) (x : list A) lo len :
  (lo + len <= length x)%nat ->
  map (fun i => nth i x d) (seq lo len) = firstn len (skipn lo x).
Proof.
  revert lo x; induction len as [|len IH]; intros lo x H; simpl; auto.
  destruct (skipn lo x) as [|a r] eqn:E.
  - apply (f_equal (@length A)) in E. rewrite length_skipn in E.
    simpl in E. lia.
  - simpl. f_equal.
    + rewrite <- (firstn_skipn lo x), E.
      rewrite app_nth2; rewrite length_firstn; [|lia].
      replace (lo - Nat.min lo (length x))%nat with 0%nat by lia.
      reflexivity.
    + rewrite IH by lia.
      replace (S lo) with (1 + lo)%nat by lia.
      rewrite <- skipn_skipn, E. reflexivity.
Qed.

Lemma strided_spec key p step r :
  strided key p step r
  = map (fun i => gauss key (p + Z.of_nat i * step)) (seq 0 r).
Proof.
  revert p; induction r as [|r IH]; intros p; simpl; auto.
  f_equal; [f_equal; lia|].
  rewrite IH, <- seq_shift, map_map.
  apply map_ext. intros i. f_equal. lia.
Qed.

Lemma columns_from_spec key p step r c :
  columns_from key p step r c
  = map (fun j => strided key (p + Z.of_nat j) step r) (seq 0 c).
Proof.
  revert p; induction c as [|c IH]; intros p; simpl; auto.
  f_equal; [f_equal; lia|].
  rewrite IH, <- seq_shift, map_map.
  apply map_ext. intros j. f_equal. lia.
Qed.

Lemma standard_normal_spec rows cols rng :
  0 <= rows -> 0 <= cols ->
  standard_normal rows cols rng
  = Ok (spec_draws rng (Z.to_nat rows) (Z.to_nat cols),
        mkRandomState (rs_key rng) (rs_pos rng + rows * cols)).
Proof.
  intros Hr Hc. unfold standard_normal.
  rewrite !dim_nonneg by assumption. cbn [bind]. do 2 f_equal.
  rewrite columns_from_spec. unfold spec_draws.
  apply map_ext. intros j. rewrite strided_spec.
  apply map_ext. intros i. f_equal. lia.
Qed.

Lemma cumsum_from_spec acc xs :
  cumsum_from acc xs
  = map (fun i => fold_left Fadd (firstn (S i) xs) acc) (seq 0 (length xs)).
Proof.
  revert acc; induction xs as [|x xs IH]; intros acc; simpl; auto.
  f_equal. rewrite IH, <- seq_shift, map_map. reflexivity.
Qed.

Lemma cumsum_spec xs : cumsum xs = spec_running_sum xs.
Proof.
  destruct xs as [|x xs]; [reflexivity|].
  unfold cumsum, spec_running_sum. simpl length. simpl seq. simpl map.
  f_equal. rewrite cumsum_from_spec, <- seq_shift, map_map. reflexivity.
Qed.

Lemma cumsum_length xs : length (cumsum xs) = length xs.
Proof.
  rewrite cumsum_spec. unfold spec_running_sum.
  now rewrite length_map, length_seq.
Qed.

Lemma spec_rows_tail n x :
  (2 <= n)%nat -> length x = n -> skipn 1 x = spec_rows 1 (n - 1) x.
Proof.
  intros Hn Hx. unfold spec_rows.
  rewrite map_nth_seq by lia.
  rewrite firstn_all2; [reflexivity|]. rewrite length_skipn. lia.
Qed.

Lemma spec_rows_init n x :
  (2 <= n)%nat -> length x = n -> removelast x = spec_rows 0 (n - 2) x.
Proof.
  intros Hn Hx. unfold spec_rows.
  rewrite map_nth_seq by lia. rewrite removelast_firstn_len, Hx.
  simpl skipn. f_equal. lia.
Qed.


Lemma nth_arange i lo hi :
  (i < Z.to_nat (hi - lo))%nat ->
  nth i (map Fof_Z (arange lo hi)) F0 = Fof_Z (lo + Z.of_nat i).
Proof.
  intros H. unfold arange. rewrite map_map.
  rewrite (nth_indep _ F0 (Fof_Z (lo + Z.of_nat 0)))
    by now rewrite length_map, length_seq.
  rewrite (map_nth (fun k => Fof_Z (lo + Z.of_nat k))), seq_nth by assumption.
  reflexivity.
Qed.

Lemma nth_arange_sq i lo hi :
  (i < Z.to_nat (hi - lo))%nat ->
  nth i (map (fun t => Fmul (Fof_Z t) (Fof_Z t)) (arange lo hi)) F0
  = Fmul (Fof_Z (lo + Z.of_nat i)) (Fof_Z (lo + Z.of_nat i)).
Proof.
  intros H. unfold arange. rewrite map_map.
  rewrite (nth_indep _ F0 ((fun k => Fmul (Fof_Z (lo + Z.of_nat k))
                                       (Fof_Z (lo + Z.of_nat k))) 0%nat))
    by now rewrite length_map, length_seq.
  rewrite (map_nth (fun k => Fmul (Fof_Z (lo + Z.of_nat k))
                               (Fof_Z (lo + Z.of_nat k)))),
    seq_nth by assumption.
  reflexivity.
Qed.

Lemma nth_ones i k : (i < k)%nat -> nth i (repeat F1 k) F0 = F1.
Proof.
  intros H. apply nth_repeat_lt. assumption.
Qed.

Lemma trend_regressors_spec t nobs :
  0 <= nobs ->
  trend_regressors (trend_tag t) nobs
  = Ok (match t with
        | TNone => None
        | _ => Some (spec_build t (Z.to_nat nobs))
        end).
Proof.
  intros H. unfold trend_regressors, ones.
  rewrite (dim_nonneg nobs H).
  destruct t; cbn [trend_tag String.eqb Ascii.eqb Bool.eqb bind];
    try reflexivity; do 2 f_equal; unfold spec_build; cbn [spec_ncols firstn].
  - now rewrite map_const_seq.
  - cbn [transpose]. rewrite repeat_length.
    apply map_ext_in. intros i Hi. apply in_seq in Hi. cbn [map].
    rewrite nth_ones, nth_arange by lia. reflexivity.
  - cbn [transpose]. rewrite repeat_length.
    apply map_ext_in. intros i Hi. apply in_seq in Hi. cbn [map].
    rewrite nth_ones, nth_arange, nth_arange_sq by lia. reflexivity.
Qed.

Lemma spec_build_length t nobs : length (spec_build t nobs) = nobs.
Proof.
  unfold spec_build. now rewrite length_map, length_seq.
Qed.

(** [project] works column by column. *)
Lemma project_columns z z_inv x :
  project z z_inv x
  = map (fun col =>
           zip_with Fsub col
             (map (fun row =>
                     dotprod row (map (fun row' => dotprod row' col) z_inv))
                  z))
        x.
Proof.
  cbv beta zeta delta [project msub dot].
  rewrite map_map. apply zip_with_map_r.
Qed.

(** The regression of lines 87-92 works column by column. *)
Lemma ar1_statistic_columns {A : Type} (f g : A -> list F) (m : nat) cols :
  (forall c, In c cols -> length (f c) = m) ->
  ar1_statistic (map f cols) (map g cols)
  = map (fun c =>
           Fmul (Fof_Z (Z.of_nat m))
             (Fsub (Fdiv (sum (zip_with Fmul (g c) (f c)))
                         (sum (map (fun v => Fmul v v) (g c))))
                   F1))
        cols.
Proof.
  intros Hlen. cbv beta zeta delta [ar1_statistic sum0 mmul msquare].
  assert (Hs : shape0 (map f cols) = Z.of_nat m \/ cols = []).
  { destruct cols as [|c cols]; [now right|left].
    simpl. now rewrite Hlen by now left. }
  destruct Hs as [->| ->]; [|reflexivity].
  repeat rewrite ?zip_with_map, ?zip_with_diag, ?map_map.
  reflexivity.
Qed.


Lemma spec_draws_column_length rng rows cols c :
  In c (spec_draws rng rows cols) -> length c = rows.
Proof.
  unfold spec_draws. intros H. apply in_map_iff in H.
  destruct H as (j & <- & _). now rewrite length_map, length_seq.
Qed.

Lemma path_length (n : nat) col :
  length col = (n + 50)%nat -> length (skipn 50 (cumsum col)) = n.
Proof.
  intros H. rewrite length_skipn, cumsum_length. lia.
Qed.

(** C2: for n >= 2, b >= 1 and each of the four trends, [adf_simulation]
    returns what the specification's algorithm computes: an (n+50) x b
    matrix of draws, cumulated down each column, its first 50 rows
    dropped, lhs = rows 1..n-1 and rhs = rows 0..n-2, both detrended with
    the regressor matrix built for n-1 observations through its
    pseudo-inverse, and per column (n-1) * (gamma - 1) with
    gamma = sum(rhs * lhs) / sum(rhs^2); the generator has then advanced
    by (n+50) * b draws. *)
Theorem adf_simulation_refines_spec (n : Z) (t : TrendSpec) (b : Z)
  (rng : RandomState) :
  2 <= n -> 1 <= b ->
  adf_simulation n (trend_tag t) b (Some rng)
  = Ok (spec_simulate (Z.to_nat n) t (Z.to_nat b) rng,
        mkRandomState (rs_key rng) (rs_pos rng + (n + 50) * b)).
Proof.
  intros Hn Hb. unfold adf_simulation. cbn [bind].
  rewrite trend_regressors_spec, standard_normal_spec by lia.
  cbn [bind]. unfold spec_simulate.
  replace (Z.to_nat (n + 50)) with (Z.to_nat n + 50)%nat by lia.
  replace (Z.to_nat (n - 1)) with (Z.to_nat n - 1)%nat by lia.
  set (cols := spec_draws rng (Z.to_nat n + 50) (Z.to_nat b)).
  assert (Hcols : forall c, In c cols -> length c = (Z.to_nat n + 50)%nat)
    by (intros c; apply spec_draws_column_length).
  assert (Hpath : forall c, In c cols ->
                            length (skipn 50 (cumsum c)) = Z.to_nat n)
    by (intros c Hc; apply path_length; auto).
  rewrite !map_map.
  assert (Hstat : forall c, In c cols ->
            spec_column_statistic (Z.to_nat n) t c
            = (let path := skipn 50 (cumsum c) in
               let lhs := spec_project t (spec_build t (Z.to_nat n - 1))
                            (skipn 1 path) in
               let rhs := spec_project t (spec_build t (Z.to_nat n - 1))
                            (removelast path) in
               Fmul (Fof_Z (Z.of_nat (Z.to_nat n - 1)))
                 (Fsub (Fdiv (sum (zip_with Fmul rhs lhs))
                             (sum (map (fun v => Fmul v v) rhs)))
                       F1))).
  { intros c Hc. unfold spec_column_statistic.
    rewrite <- cumsum_spec.
    rewrite <- (spec_rows_tail (Z.to_nat n)), <- (spec_rows_init (Z.to_nat n))
      by (auto; lia).
    reflexivity. }
  assert (Hlen : forall c, In c cols ->
            length (spec_project t (spec_build t (Z.to_nat n - 1))
                      (skipn 1 (skipn 50 (cumsum c))))
            = (Z.to_nat n - 1)%nat).
  { intros c Hc. unfold spec_project.
    assert (length (skipn 1 (skipn 50 (cumsum c))) = (Z.to_nat n - 1)%nat)
      by (rewrite length_skipn, Hpath by assumption; lia).
    destruct (spec_ncols t); [assumption|].
    rewrite zip_with_length, length_map, spec_build_length. lia. }
  match goal with |- context [detrend ?z ?l ?r] =>
    assert (E : detrend z l r
                = (map (fun c => spec_project t (spec_build t (Z.to_nat n - 1))
                                   (skipn 1 (skipn 50 (cumsum c)))) cols,
                   map (fun c => spec_project t (spec_build t (Z.to_nat n - 1))
                                   (removelast (skipn 50 (cumsum c)))) cols))
  end.
  { destruct t; cbn [detrend]; rewrite ?project_columns, ?map_map;
      reflexivity. }
  rewrite E.
  rewrite (ar1_statistic_columns _ _ (Z.to_nat n - 1)) by exact Hlen.
  do 2 f_equal. apply map_ext_in. intros c Hc. rewrite Hstat by assumption.
  reflexivity.
Qed.

End Refinement.


(** ** The projection on a constant, in exact arithmetic *)

Section ExactArithmetic.

Context {D : DType} {L : Library D}.
Variables (Fopp : F -> F) (Finv : F -> F).
Hypothesis Fth :
  field_theory F0 F1 Fadd Fmul Fsub Fopp Fdiv Finv (@eq F).

Add Ring F_ring : (F_R Fth).

Lemma fold_left_Fadd xs a : fold_left Fadd xs a = Fadd a (sum xs).
Proof.
  revert a; induction xs as [|x xs IH]; intros a; simpl.
  - ring.
  - rewrite IH, (IH x). ring.
Qed.

Lemma sum_cons x xs : sum (x :: xs) = Fadd x (sum xs).
Proof. apply fold_left_Fadd. Qed.

Lemma sum_nil : sum (@nil F) = F0.
Proof. reflexivity. Qed.

Lemma sum_repeat k m : sum (repeat k m) = Fmul k (sum (repeat F1 m)).
Proof.
  induction m as [|m IH]; cbn [repeat].
  - rewrite sum_nil. ring.
  - rewrite !sum_cons, IH. ring.
Qed.

Lemma dotprod_repeat_l c x :
  dotprod (repeat c (length x)) x = Fmul c (sum x).
Proof.
  unfold dotprod. induction x as [|a x IH]; cbn [length repeat zip_with].
  - rewrite sum_nil. ring.
  - rewrite !sum_cons, IH. ring.
Qed.

Lemma sum_sub_repeat x k :
  sum (zip_with Fsub x (repeat k (length x)))
  = Fsub (sum x) (Fmul k (sum (repeat F1 (length x)))).
Proof.
  induction x as [|a x IH]; cbn [length repeat zip_with].
  - rewrite sum_nil. ring.
  - rewrite !sum_cons, IH. ring.
Qed.

Lemma dotprod_one_cons a rest : dotprod [F1] (a :: rest) = a.
Proof.
  unfold dotprod. cbn [zip_with]. destruct rest; cbn [zip_with sum fold_left]; ring.
Qed.


Lemma map_nth_all (r : list F) :
  map (fun i => nth i r F0) (seq 0 (length r)) = r.
Proof.
  induction r as [|a r IH]; cbn [length seq map nth]; auto.
  f_equal. rewrite <- seq_shift, map_map. exact IH.
Qed.

(** A column of ones times a matrix whose first row is [r]. *)
Lemma matmul_ones_l m r p :
  matmul (repeat [F1] m) (r :: p) = repeat r m.
Proof.
  unfold matmul. rewrite map_repeat. f_equal.
  cbn [transpose]. rewrite map_map.
  rewrite <- (map_nth_all r) at 2.
  apply map_ext. intros i. cbn [map]. apply dotprod_one_cons.
Qed.

Lemma transpose_repeat r m :
  transpose (repeat r (S m))
  = map (fun i => repeat (nth i r F0) (S m)) (seq 0 (length r)).
Proof.
  cbn [repeat transpose]. apply map_ext. intros i.
  cbn [map]. now rewrite map_repeat.
Qed.

Lemma transpose_ones m : transpose (repeat [F1] (S m)) = [repeat F1 (S m)].
Proof.
  rewrite transpose_repeat. cbn [length seq map nth]. reflexivity.
Qed.

Lemma matmul_ones_r r m :
  matmul (repeat r (S m)) (repeat [F1] (S m))
  = repeat [dotprod r (repeat F1 (S m))] (S m).
Proof.
  unfold matmul. rewrite transpose_ones, map_repeat. reflexivity.
Qed.

(** What the Penrose conditions say of the pseudo-inverse of a column of
    ones: its first row is constant, and the constant times the number of
    rows is one. *)
Lemma pinv_ones_row m p :
  moore_penrose (repeat [F1] (S m)) p ->
  exists c p',
    p = repeat c (S m) :: p' /\ Fmul c (sum (repeat F1 (S m))) = F1.
Proof.
  intros (H1 & _ & H3 & _).
  destruct p as [|r p'].
  - exfalso. unfold matmul in H3. cbn [transpose] in H3.
    rewrite map_repeat in H3. cbn [map] in H3.
    rewrite transpose_repeat in H3. discriminate H3.
  - rewrite matmul_ones_l in H1, H3.
    rewrite transpose_repeat in H3.
    assert (Hlen : length r = S m).
    { apply (f_equal (@length (list F))) in H3.
      now rewrite length_map, length_seq, repeat_length in H3. }
    assert (Hr : r = repeat (nth 0 r F0) (S m)).
    { rewrite Hlen in H3. cbn [seq map] in H3.
      injection H3 as H3 _. now symmetry. }
    exists (nth 0 r F0), p'. split; [now f_equal|].
    rewrite matmul_ones_r in H1. injection H1 as H1 _.
    rewrite Hr in H1.
    rewrite <- (repeat_length F1 (S m)) in H1 at 1.
    rewrite dotprod_repeat_l in H1. exact H1.
Qed.

(** The residual of one series after the projection on a column of
    ones. *)
Lemma project_ones_column m c p' x :
  project (repeat [F1] m) (repeat c (length x) :: p') [x]
  = [zip_with Fsub x (repeat (Fmul c (sum x)) m)].
Proof.
  cbv beta zeta delta [project msub dot]. cbn [map zip_with].
  rewrite map_repeat, dotprod_one_cons, dotprod_repeat_l. reflexivity.
Qed.


(** C8: for the trend 'c' the regressor matrix is a column of ones, and in
    exact arithmetic (the element type a field, [pinv] the Moore-Penrose
    pseudo-inverse) the residual [series - z (pinv(z) series)] of every
    series of n - 1 observations has sum zero, hence mean zero. *)
Theorem constant_trend_residual_mean_zero (n : Z) (z : list (list F))
  (series : list F) :
  2 <= n ->
  trend_regressors "c" (n - 1) = Ok (Some z) ->
  moore_penrose z (pinv z) ->
  length series = Z.to_nat (n - 1) ->
  exists residual,
    project z (pinv z) [series] = [residual]
    /\ length residual = Z.to_nat (n - 1)
    /\ sum residual = F0
    /\ mean residual = F0.
Proof.
  intros Hn Hz Hmp Hlen.
  unfold trend_regressors in Hz. cbn [String.eqb Ascii.eqb Bool.eqb] in Hz.
  rewrite dim_nonneg in Hz by lia. cbn [bind] in Hz.
  injection Hz as <-.
  destruct (Z.to_nat (n - 1)) as [|m] eqn:Em; [lia|].
  destruct (pinv_ones_row m _ Hmp) as (c & p' & -> & Hc).
  rewrite <- Hlen in Hc |- *.
  rewrite project_ones_column.
  eexists; split; [reflexivity|].
  assert (Hsum : sum (zip_with Fsub series
                        (repeat (Fmul c (sum series)) (length series)))
                 = F0).
  { rewrite sum_sub_repeat.
    transitivity (Fsub (sum series)
                    (Fmul (sum series)
                       (Fmul c (sum (repeat F1 (length series)))))); [ring|].
    rewrite Hc. ring. }
  split; [|split; [exact Hsum|]].
  - rewrite zip_with_length, repeat_length. lia.
  - unfold mean. rewrite Hsum, (Fdiv_def Fth). ring.
Qed.

End ExactArithmetic.


(** ** The regression column by column *)

Section Columns.

Context {D : DType} {L : Library D}.

Lemma nth_zip_with {A B C : Type} (f : A -> B -> C) xs ys j da db dc :
  (j < length xs)%nat -> (j < length ys)%nat ->
  nth j (zip_with f xs ys) dc = f (nth j xs da) (nth j ys db).
Proof.
  revert xs ys; induction j as [|j IH]; intros [|x xs] [|y ys] Hx Hy;
    simpl in *; try lia; auto.
  apply IH; lia.
Qed.

Lemma nth_map_in {A B : Type} (f : A -> B) xs j da db :
  (j < length xs)%nat -> nth j (map f xs) db = f (nth j xs da).
Proof.
  intros H. rewrite (nth_indep _ db (f da)) by now rewrite length_map.
  apply map_nth.
Qed.

Lemma ar1_statistic_nth lhs rhs j d :
  (j < length lhs)%nat -> (j < length rhs)%nat ->
  nth j (ar1_statistic lhs rhs) d
  = column_statistic (shape0 lhs) (nth j lhs []) (nth j rhs []).
Proof.
  intros Hl Hr. cbv beta zeta delta [ar1_statistic sum0 mmul msquare].
  rewrite (nth_map_in _ _ _ F0)
    by (repeat rewrite ?zip_with_length, ?length_map; lia).
  rewrite (nth_zip_with _ _ _ _ F0 F0)
    by (repeat rewrite ?zip_with_length, ?length_map; lia).
  rewrite (nth_map_in _ _ _ []) by (rewrite zip_with_length; lia).
  rewrite (nth_zip_with _ _ _ _ [] []) by lia.
  rewrite (nth_map_in _ _ _ []) by (rewrite length_map; lia).
  rewrite (nth_map_in _ _ _ []) by lia.
  reflexivity.
Qed.

Lemma adf_simulation_detrended n trend b rng :
  adf_simulation n trend b (Some rng)
  = (' (lhs, rhs, rng') <- detrended_walks n trend b rng ;;
     Ok (ar1_statistic lhs rhs, rng')).
Proof.
  unfold adf_simulation, detrended_walks.
  destruct (trend_regressors trend (n - 1)) as [z|e]; [|reflexivity].
  cbn [bind].
  destruct (standard_normal (n + 50) b rng) as [[y rng']|e]; [|reflexivity].
  cbn [bind]. rewrite map_map.
  destruct (detrend z _ _) as [lhs rhs]. reflexivity.
Qed.

Lemma detrended_walks_lengths n trend b rng lhs rhs rng' :
  detrended_walks n trend b rng = Ok (lhs, rhs, rng') ->
  length lhs = length rhs.
Proof.
  unfold detrended_walks.
  destruct (trend_regressors trend (n - 1)) as [z|e]; [|discriminate].
  cbn [bind].
  destruct (standard_normal (n + 50) b rng) as [[y rng1]|e]; [|discriminate].
  cbn [bind]. intros H. injection H as H _.
  match type of H with detrend ?z ?l ?r = _ =>
    pose proof (detrend_length z l r) as [Hl Hr] end.
  rewrite H in Hl, Hr. cbn [fst snd] in Hl, Hr.
  rewrite Hl, Hr, !length_map. reflexivity.
Qed.

End Columns.

(** ** A degenerate regression in binary64 *)

Lemma is_zero_Prim2SF x :
  PrimFloat.is_zero x = true <-> exists s, Prim2SF x = S754_zero s.
Proof.
  unfold PrimFloat.is_zero. rewrite eqb_spec.
  change (Prim2SF PrimFloat.zero) with (S754_zero false).
  destruct (Prim2SF x) as [s|s| |s m e]; cbn; split;
    try discriminate; eauto; try (intros [s' H]; discriminate H).
  all: destruct s; discriminate.
Qed.

Lemma is_nan_Prim2SF x : Prim2SF x = S754_nan -> PrimFloat.is_nan x = true.
Proof.
  intros H. unfold PrimFloat.is_nan. rewrite eqb_spec, H. reflexivity.
Qed.

Lemma is_zero_zero_or_nan x :
  PrimFloat.is_zero x = true -> zero_or_nan x = true.
Proof.
  intros H. apply is_zero_Prim2SF in H. destruct H as [s H].
  unfold zero_or_nan. now rewrite H.
Qed.

Lemma mul_zero_l x y :
  PrimFloat.is_zero x = true -> zero_or_nan (x * y) = true.
Proof.
  intros H. apply is_zero_Prim2SF in H. destruct H as [s H].
  unfold zero_or_nan. rewrite mul_spec, H.
  destruct (Prim2SF y); reflexivity.
Qed.

Lemma square_zero x :
  PrimFloat.is_zero x = true -> PrimFloat.is_zero (x * x) = true.
Proof.
  intros H. apply is_zero_Prim2SF in H. destruct H as [s H].
  apply is_zero_Prim2SF. rewrite mul_spec, H. cbn. eauto.
Qed.

Lemma add_zero_or_nan x y :
  zero_or_nan x = true -> zero_or_nan y = true -> zero_or_nan (x + y) = true.
Proof.
  unfold zero_or_nan. rewrite add_spec.
  destruct (Prim2SF x) as [[|]| | |]; try discriminate; intros _;
  destruct (Prim2SF y) as [[|]| | |]; try discriminate; reflexivity.
Qed.

Lemma add_zero x y :
  PrimFloat.is_zero x = true -> PrimFloat.is_zero y = true ->
  PrimFloat.is_zero (x + y) = true.
Proof.
  intros Hx Hy. apply is_zero_Prim2SF in Hx, Hy.
  destruct Hx as [[|] Hx], Hy as [[|] Hy];
    apply is_zero_Prim2SF; rewrite add_spec, Hx, Hy; cbn; eauto.
Qed.

Lemma div_by_zero_nan x y :
  zero_or_nan x = true -> PrimFloat.is_zero y = true ->
  Prim2SF (x / y) = S754_nan.
Proof.
  intros Hx Hy. apply is_zero_Prim2SF in Hy. destruct Hy as [s Hy].
  unfold zero_or_nan in Hx. rewrite div_spec, Hy.
  destruct (Prim2SF x); try discriminate; reflexivity.
Qed.

Lemma sub_nan_l x y : Prim2SF x = S754_nan -> Prim2SF (x - y) = S754_nan.
Proof.
  intros H. rewrite sub_spec, H. reflexivity.
Qed.

Lemma mul_nan_r x y : Prim2SF y = S754_nan -> Prim2SF (x * y) = S754_nan.
Proof.
  intros H. rewrite mul_spec, H. destruct (Prim2SF x); reflexivity.
Qed.

Lemma fold_add_zero xs a :
  PrimFloat.is_zero a = true -> all_zero xs ->
  PrimFloat.is_zero (fold_left PrimFloat.add xs a) = true.
Proof.
  intros Ha H. revert a Ha.
  induction H as [|x xs Hx _ IH]; intros a Ha; cbn [fold_left]; auto.
  apply IH. now apply add_zero.
Qed.

Lemma fold_add_zero_or_nan xs a :
  zero_or_nan a = true -> Forall (fun v => zero_or_nan v = true) xs ->
  zero_or_nan (fold_left PrimFloat.add xs a) = true.
Proof.
  intros Ha H. revert a Ha.
  induction H as [|x xs Hx _ IH]; intros a Ha; cbn [fold_left]; auto.
  apply IH. now apply add_zero_or_nan.
Qed.

Lemma sum_zero (xs : list float) :
  all_zero xs -> PrimFloat.is_zero (@sum float64 xs) = true.
Proof.
  intros H. destruct H as [|x xs Hx H]; [reflexivity|].
  now apply fold_add_zero.
Qed.

Lemma sum_zero_or_nan (xs : list float) :
  Forall (fun v => zero_or_nan v = true) xs ->
  zero_or_nan (@sum float64 xs) = true.
Proof.
  intros H. destruct H as [|x xs Hx H]; [reflexivity|].
  now apply fold_add_zero_or_nan.
Qed.

Lemma products_zero_or_nan (rhs lhs : list float) :
  all_zero rhs ->
  Forall (fun v => zero_or_nan v = true) (zip_with PrimFloat.mul rhs lhs).
Proof.
  intros H. revert lhs.
  induction H as [|x rhs Hx _ IH]; intros [|y lhs]; cbn [zip_with];
    constructor; auto using mul_zero_l.
Qed.

Lemma squares_zero (rhs : list float) :
  all_zero rhs -> all_zero (map (fun v => PrimFloat.mul v v) rhs).
Proof.
  intros H. induction H as [|x rhs Hx _ IH]; cbn [map]; constructor;
    auto using square_zero.
Qed.

(** The statistic of a column whose [rhs] is zero throughout. *)
Lemma column_statistic_nan (nobs : Z) (lhs rhs : list float) :
  all_zero rhs ->
  PrimFloat.is_nan (@column_statistic float64 nobs lhs rhs) = true.
Proof.
  intros H. apply is_nan_Prim2SF. unfold column_statistic.
  apply mul_nan_r, sub_nan_l, div_by_zero_nan.
  - apply sum_zero_or_nan, products_zero_or_nan, H.
  - apply sum_zero, squares_zero, H.
Qed.

(** The statistic of a column whose [rhs] has a computed sum of squares
    equal to zero: the division is by zero. *)
Lemma nan_or_infinity_not_finite x :
  nan_or_infinity x = true ->
  PrimFloat.is_nan x = true \/ PrimFloat.is_infinity x = true.
Proof.
  unfold nan_or_infinity, PrimFloat.is_nan, PrimFloat.is_infinity.
  rewrite !eqb_spec, abs_spec.
  change (Prim2SF infinity) with (S754_infinity false).
  destruct (Prim2SF x) as [s|s| |s m e]; try discriminate; intros _.
  - right. reflexivity.
  - left. reflexivity.
Qed.

Lemma div_by_zero_not_finite x y :
  PrimFloat.is_zero y = true -> nan_or_infinity (x / y) = true.
Proof.
  intros Hy. apply is_zero_Prim2SF in Hy. destruct Hy as [s Hy].
  unfold nan_or_infinity. rewrite div_spec, Hy.
  destruct (Prim2SF x); reflexivity.
Qed.

Lemma sub_one_not_finite x :
  nan_or_infinity x = true -> nan_or_infinity (x - 1) = true.
Proof.
  unfold nan_or_infinity. rewrite sub_spec.
  change (Prim2SF 1) with (S754_finite false 4503599627370496 (-52)).
  destruct (Prim2SF x) as [s|s| |s m e]; try discriminate; reflexivity.
Qed.

Lemma mul_not_finite x y :
  nan_or_infinity y = true -> nan_or_infinity (x * y) = true.
Proof.
  unfold nan_or_infinity. rewrite mul_spec.
  destruct (Prim2SF y) as [s|s| |s m e]; try discriminate; intros _;
    destruct (Prim2SF x); reflexivity.
Qed.

Lemma column_statistic_not_finite (nobs : Z) (lhs rhs : list float) :
  PrimFloat.is_zero (@sum float64 (map (fun v => PrimFloat.mul v v) rhs))
  = true ->
  nan_or_infinity (@column_statistic float64 nobs lhs rhs) = true.
Proof.
  intros H. unfold column_statistic.
  apply mul_not_finite, sub_one_not_finite, div_by_zero_not_finite, H.
Qed.

(** C5 (as amended): when the sum of squares [xpx] computed for a column
    of the detrended [rhs] is a zero, [adf_simulation] over binary64 raises
    nothing: it returns the whole vector, and the statistic of that column
    is not finite, a NaN or an infinity.  It is a NaN whenever every entry
    of the column is a zero. *)
Theorem zero_sum_of_squares_statistic_not_finite (L : Library float64)
  (n : Z) (trend : string) (b : Z) (rng rng' : RandomState)
  (lhs rhs : list (list float)) (j : nat) :
  @detrended_walks float64 L n trend b rng = Ok (lhs, rhs, rng') ->
  (j < length rhs)%nat ->
  PrimFloat.is_zero
    (@sum float64 (map (fun v => PrimFloat.mul v v) (nth j rhs []))) = true ->
  exists stat,
    @adf_simulation float64 L n trend b (Some rng) = Ok (stat, rng')
    /\ length stat = length rhs
    /\ (PrimFloat.is_nan (nth j stat PrimFloat.zero) = true
        \/ PrimFloat.is_infinity (nth j stat PrimFloat.zero) = true)
    /\ (all_zero (nth j rhs []) ->
        PrimFloat.is_nan (nth j stat PrimFloat.zero) = true).
Proof.
  intros Hw Hj Hz.
  pose proof (detrended_walks_lengths _ _ _ _ _ _ _ Hw) as Hlen.
  rewrite adf_simulation_detrended, Hw. cbn [bind].
  eexists; split; [reflexivity|]. split.
  - rewrite ar1_statistic_length, Hlen. apply Nat.min_id.
  - rewrite (@ar1_statistic_nth float64);
      [| now rewrite Hlen | exact Hj].
    split.
    + now apply nan_or_infinity_not_finite, column_statistic_not_finite.
    + apply column_statistic_nan.
Qed.


(** * The code run on concrete inputs *)

(** C1 fails as stated.  With n = 100000 and b = 2 a budget of 1 MiB gives
    block size 1 (two calls of one column each: column 0 is draws 0, 1, 2,
    ... and column 1 the draws after them), a budget of 100 MiB gives block
    size 131 (one call of two columns: column 0 is draws 0, 2, 4, ... and
    column 1 is draws 1, 3, 5, ...).  The two vectors differ. *)
Lemma wrapper_budget_changes_vector :
  block_size 1 100000 = Ok 1 /\
  block_size 100 100000 = Ok 131 /\
  Qc_values (@wrapper Qc_dtype Qc_library 1 0 100000 "nc" 2 0)
  = Ok [-4999950000 # 123809; -15000549993 # 821440]%Q /\
  Qc_values (@wrapper Qc_dtype Qc_library 100 0 100000 "nc" 2 0)
  = Ok [-14999650002 # 142855; -5999840001 # 57142]%Q /\
  @wrapper Qc_dtype Qc_library 1 0 100000 "nc" 2 0
  <> @wrapper Qc_dtype Qc_library 100 0 100000 "nc" 2 0.
Proof.
  assert (H1 : Qc_values (@wrapper Qc_dtype Qc_library 1 0 100000 "nc" 2 0)
               = Ok [-4999950000 # 123809; -15000549993 # 821440]%Q)
    by (vm_compute; reflexivity).
  assert (H2 : Qc_values (@wrapper Qc_dtype Qc_library 100 0 100000 "nc" 2 0)
               = Ok [-14999650002 # 142855; -5999840001 # 57142]%Q)
    by (vm_compute; reflexivity).
  split; [vm_compute; reflexivity|].
  split; [vm_compute; reflexivity|].
  split; [exact H1|]. split; [exact H2|].
  intros E. rewrite E, H2 in H1. discriminate H1.
Qed.

Lemma wrapper_same_capped_block_size_witness :
  block_size 1 50 = Ok 2621 /\
  block_size 100 50 = Ok 262144 /\
  @wrapper Qc_dtype Qc_library 1 0 50 "c" 1000 0
  = @wrapper Qc_dtype Qc_library 100 0 50 "c" 1000 0.
Proof.
  split; [vm_compute; reflexivity|]. split; [vm_compute; reflexivity|].
  apply (@wrapper_same_capped_block_size Qc_dtype Qc_library
           1 100 0 50 "c" 1000 0 2621 262144);
    [reflexivity | reflexivity | lia | lia | reflexivity].
Defined.

(** Beyond the integers a float holds exactly, line 42 gives what binary64
    gives: a rounded divisor can lift the block size above the integer
    quotient, and an operand or a quotient too large for a float raises
    [OverflowError]. *)
Lemma block_size_beyond_exact_operands :
  block_size (2 ^ 36) (2 ^ 53 + 1) = Ok 1 /\
  Z.quot (2 ^ 20 * 2 ^ 36) (8 * (2 ^ 53 + 1)) = 0 /\
  block_size 100 (2 ^ 1024) = Raise OverflowError /\
  block_size (2 ^ 1010) 1 = Raise OverflowError.
Proof.
  repeat split; vm_compute; reflexivity.
Qed.

(** C3 fails as stated: with the budget of the script, 100 MiB, the sample
    size n = 13107201 gives block size 0, and [wrapper] raises. *)
Lemma block_size_zero_for_large_n :
  block_size MAX_MEMORY_SIZE 13107201 = Ok 0 /\
  @wrapper Qc_dtype Qc_library MAX_MEMORY_SIZE 0 13107201 "nc" 1 0
  = Raise ValueError.
Proof.
  split; vm_compute; reflexivity.
Qed.

Lemma block_size_floor_unclamped_witness :
  block_size 100 50 = Ok 262144 /\
  block_size 100 13107200 = Ok 1 /\
  forall e trend b seed,
    @wrapper Qc_dtype Qc_library 100 e 13107201 trend b seed
    = Raise ValueError.
Proof.
  split; [|split].
  - exact (proj1 (@block_size_floor_unclamped Qc_dtype Qc_library 100 50
                    ltac:(lia) ltac:(lia) ltac:(lia) ltac:(lia))).
  - exact (proj1 (@block_size_floor_unclamped Qc_dtype Qc_library
                    100 13107200 ltac:(lia) ltac:(lia) ltac:(lia)
                    ltac:(lia))).
  - apply (@block_size_floor_unclamped Qc_dtype Qc_library 100 13107201);
      lia.
Defined.

(** C4 fails as stated: the tag 'foo' is accepted and yields a statistic,
    the one the tag 'nc' yields. *)
Lemma unknown_trend_yields_statistic :
  Qc_statistic (@adf_simulation Qc_dtype Qc_library 2 "foo" 1
                  (Some (mkRandomState 0 0)))
  = Ok [-3 # 4]%Q /\
  @wrapper Qc_dtype Qc_library MAX_MEMORY_SIZE 0 2 "foo" 1 0
  = @wrapper Qc_dtype Qc_library MAX_MEMORY_SIZE 0 2 "nc" 1 0.
Proof.
  split; vm_compute; reflexivity.
Qed.

Lemma unrecognised_trend_runs_as_nc_witness :
  @adf_simulation Qc_dtype Qc_library 2 "foo" 1 (Some (mkRandomState 0 0))
  = @adf_simulation Qc_dtype Qc_library 2 "nc" 1 (Some (mkRandomState 0 0))
  /\ exists r,
       @adf_simulation Qc_dtype Qc_library 2 "foo" 1
         (Some (mkRandomState 0 0)) = Ok r.
Proof.
  pose proof (@unrecognised_trend_runs_as_nc Qc_dtype Qc_library
                2 "foo" 1 (mkRandomState 0 0)
                ltac:(discriminate) ltac:(discriminate) ltac:(discriminate))
    as [H1 H2].
  split; [exact H1 | apply H2; lia].
Defined.

Lemma adf_simulation_shapes_witness :
  (exists stat rng',
     @adf_simulation Qc_dtype Qc_library 3 "c" 2 (Some (mkRandomState 0 0))
     = Ok (stat, rng')
     /\ Z.of_nat (length stat) = 2) /\
  (exists z,
     @trend_regressors Qc_dtype "ctt" (3 - 1) = Ok (Some z)
     /\ Z.of_nat (length z) = 3 - 1
     /\ Forall (fun row => length row = 3%nat) z).
Proof.
  apply (@adf_simulation_shapes Qc_dtype Qc_library 3 "c" 2
           (mkRandomState 0 0)); [lia | lia | simpl; auto].
Defined.

Lemma adf_simulation_refines_spec_witness :
  @adf_simulation Qc_dtype Qc_library 3 (trend_tag TConstant) 2
    (Some (mkRandomState 0 0))
  = Ok (@spec_simulate Qc_dtype Qc_library (Z.to_nat 3) TConstant
          (Z.to_nat 2) (mkRandomState 0 0),
        mkRandomState 0 (0 + (3 + 50) * 2)).
Proof.
  apply (@adf_simulation_refines_spec Qc_dtype Qc_library 3 TConstant 2
           (mkRandomState 0 0)); lia.
Defined.

Lemma Qc_rows_eq (a b : list (list Qc)) :
  map (map this) a = map (map this) b -> a = b.
Proof.
  revert b; induction a as [|r a IH]; intros [|s b] H; try discriminate;
    auto.
  cbn [map] in H. injection H as Hr Ha. f_equal; [|now apply IH].
  clear - Hr. revert s Hr; induction r as [|x r IH]; intros [|y s] H;
    try discriminate; auto.
  cbn [map] in H. injection H as Hx Hr.
  f_equal; [now apply Qc_decomp | now apply IH].
Qed.

Lemma Qc_pinv_ones_moore_penrose :
  @moore_penrose Qc_dtype (repeat [Q2Qc 1] 3) (Qc_pinv (repeat [Q2Qc 1] 3)).
Proof.
  repeat split; apply Qc_rows_eq; vm_compute; reflexivity.
Qed.

Lemma constant_trend_residual_mean_zero_witness :
  exists residual,
    @project Qc_dtype (repeat [Q2Qc 1] 3) (Qc_pinv (repeat [Q2Qc 1] 3))
      [[Q2Qc 1; Q2Qc 2; Q2Qc 6]] = [residual]
    /\ length residual = Z.to_nat (4 - 1)
    /\ @sum Qc_dtype residual = Q2Qc 0
    /\ @mean Qc_dtype residual = Q2Qc 0.
Proof.
  apply (@constant_trend_residual_mean_zero Qc_dtype Qc_library
           Qcopp Qcinv Qcft 4 (repeat [Q2Qc 1] 3)
           [Q2Qc 1; Q2Qc 2; Q2Qc 6]).
  - lia.
  - reflexivity.
  - exact Qc_pinv_ones_moore_penrose.
  - reflexivity.
Defined.

(** C5 fails as stated: a zero sum of squares does not make the statistic
    a NaN.  With n = 2, the trend 'nc' and one replication whose walk ends
    in 2^-600, 2^600, the lagged series is [2^-600]; its square underflows,
    the sum of squares is 0.0, the cross product is 1, and the statistic is
    1 * (1 / 0.0 - 1), an infinity. *)
Lemma zero_sum_of_squares_statistic_infinite :
  @detrended_walks float64 underflow_library 2 "nc" 1 (mkRandomState 0 0)
  = Ok ([[0x1p+600%float]], [[0x1p-600%float]], mkRandomState 0 52) /\
  PrimFloat.is_zero
    (@sum float64 (map (fun v => PrimFloat.mul v v) [0x1p-600%float])) = true /\
  @adf_simulation float64 underflow_library 2 "nc" 1
    (Some (mkRandomState 0 0))
  = Ok ([infinity], mkRandomState 0 52) /\
  PrimFloat.is_nan (nth 0 [infinity] PrimFloat.zero) = false.
Proof.
  split; [vm_compute; reflexivity|].
  split; [vm_compute; reflexivity|].
  split; vm_compute; reflexivity.
Qed.

(** The degenerate path is reached by ordinary inputs: with n = 2 and the
    trend 'c' the single lagged observation minus its own mean is zero. *)
Lemma zero_sum_of_squares_statistic_not_finite_witness :
  exists stat,
    @adf_simulation float64 float_library 2 "c" 2 (Some (mkRandomState 0 0))
    = Ok (stat, mkRandomState 0 104)
    /\ length stat = length [[0%float]; [0%float]]
    /\ (PrimFloat.is_nan (nth 0 stat PrimFloat.zero) = true
        \/ PrimFloat.is_infinity (nth 0 stat PrimFloat.zero) = true)
    /\ (all_zero (nth 0 [[0%float]; [0%float]] []) ->
        PrimFloat.is_nan (nth 0 stat PrimFloat.zero) = true).
Proof.
  apply (zero_sum_of_squares_statistic_not_finite float_library 2 "c" 2
           (mkRandomState 0 0) (mkRandomState 0 104)
           [[0%float]; [0%float]] [[0%float]; [0%float]] 0).
  - vm_compute; reflexivity.
  - simpl; lia.
  - vm_compute; reflexivity.
Defined.

(** * Further properties of the code *)

(** ** The loop of [wrapper] *)

Section BlockedRunProperties.
Context {D : DType} {L : Library D}.

Lemma trend_regressors_raises trend nobs :
  has_regressors trend = true -> nobs < 0 ->
  trend_regressors trend nobs = Raise ValueError.
Proof.
  unfold has_regressors, trend_regressors, ones. intros H Hn.
  rewrite (dim_neg nobs Hn). cbn [bind].
  destruct (String.eqb trend "c"); [reflexivity|].
  destruct (String.eqb trend "ct"); [reflexivity|].
  destruct (String.eqb trend "ctt"); [reflexivity|discriminate].
Qed.

Lemma trend_regressors_none trend nobs :
  has_regressors trend = false -> trend_regressors trend nobs = Ok None.
Proof.
  unfold has_regressors, trend_regressors. intros H.
  destruct (String.eqb trend "c"); [discriminate|].
  destruct (String.eqb trend "ct"); [discriminate|].
  destruct (String.eqb trend "ctt"); [discriminate|reflexivity].
Qed.

(** X1: what [adf_simulation] does on every input ([pinv] taken to
    return normally).  It raises, and then
    [ValueError], exactly when a regressor matrix is asked for with n < 1,
    or n + 50 < 0, or b < 0; otherwise it returns [b] statistics and has
    advanced the generator by (n + 50) * b variates. *)
Theorem adf_simulation_outcome (n : Z) (trend : string) (b : Z)
  (rng : RandomState) :
  match adf_simulation n trend b (Some rng) with
  | Raise e =>
      e = ValueError
      /\ ((has_regressors trend = true /\ n < 1) \/ n + 50 < 0 \/ b < 0)
  | Ok (stat, rng') =>
      (has_regressors trend = false \/ 1 <= n) /\ 0 <= n + 50 /\ 0 <= b
      /\ length stat = Z.to_nat b
      /\ rng' = mkRandomState (rs_key rng) (rs_pos rng + (n + 50) * b)
  end.
Proof.
  destruct (has_regressors trend) eqn:Hreg.
  - destruct (Z.lt_ge_cases n 1) as [Hn|Hn].
    + unfold adf_simulation.
      rewrite trend_regressors_raises by (auto; lia). cbn [bind]. auto.
    + destruct (trend_regressors_ok trend (n - 1)) as [z Hz]; [lia|].
      destruct (Z.lt_ge_cases b 0) as [Hb|Hb].
      * unfold adf_simulation, standard_normal.
        rewrite Hz, dim_nonneg, (dim_neg b) by lia. cbn [bind]. auto.
      * destruct (adf_simulation_ok n trend b rng z Hz) as (stat & -> & Hl);
          try lia.
        repeat split; auto; lia.
  - pose proof (trend_regressors_none trend (n - 1) Hreg) as Hz.
    destruct (Z.lt_ge_cases (n + 50) 0) as [Hn|Hn].
    + unfold adf_simulation, standard_normal.
      rewrite Hz, dim_neg by lia. cbn [bind]. auto.
    + destruct (Z.lt_ge_cases b 0) as [Hb|Hb].
      * unfold adf_simulation, standard_normal.
        rewrite Hz, dim_nonneg, (dim_neg b) by lia. cbn [bind]. auto.
      * destruct (adf_simulation_ok n trend b rng None Hz) as (stat & -> & Hl);
          try lia.
        repeat split; auto; lia.
Qed.


Lemma wrapper_body_count n trend bs s j :
  wrapper_body n trend bs s j
  = (let count := Z.min bs (ls_remaining s) in
     ' (stat, rng) <- adf_simulation n trend count (Some (ls_rng s)) ;;
     res <- assign_slice (ls_res s) (ls_finished s) (ls_finished s + count)
              stat ;;
     Ok (mkLoop rng (ls_remaining s - count) res (ls_finished s + count))).
Proof.
  unfold wrapper_body.
  replace (if bs <? ls_remaining s then bs else ls_remaining s)
    with (Z.min bs (ls_remaining s)); [reflexivity|].
  destruct (Z.ltb_spec bs (ls_remaining s)); lia.
Qed.

Lemma assign_slice_inside res st count v :
  0 <= st -> 0 <= count ->
  (Z.to_nat (st + count) <= length res)%nat ->
  length v = Z.to_nat count ->
  assign_slice res st (st + count) v
  = Ok (firstn (Z.to_nat st) res ++ v ++ skipn (Z.to_nat (st + count)) res).
Proof.
  intros Hst Hc Hlen Hv. unfold assign_slice.
  rewrite !Nat.min_l by lia.
  replace (length v =? Z.to_nat (st + count) - Z.to_nat st)%nat with true;
    [reflexivity|].
  symmetry. apply Nat.eqb_eq. lia.
Qed.

(** The loop of lines 43-52 against [blocks]: from any state whose array
    has room for what is finished and what remains, [k] passes (the
    number that covers what remains) leave the array's first [finished]
    entries as they were and write the statistics of the [k] calls after
    them. *)
Lemma for_each_blocks n trend bs :
  1 <= bs ->
  forall k js s,
    length js = k ->
    0 <= ls_finished s -> 0 <= ls_remaining s ->
    (Z.of_nat k - 1) * bs < ls_remaining s <= Z.of_nat k * bs ->
    length (ls_res s) = Z.to_nat (ls_finished s + ls_remaining s) ->
    for_each (wrapper_body n trend bs) js s
    = (' (v, rng') <- blocks n trend bs k (ls_rng s) (ls_remaining s) ;;
       Ok (mkLoop rng' 0
             (firstn (Z.to_nat (ls_finished s)) (ls_res s) ++ v)
             (ls_finished s + ls_remaining s))).
Proof.
  intros Hbs k. induction k as [|k IH]; intros js s Hjs Hf Hr Hk Hlen.
  - destruct js; [|discriminate]. destruct s as [rng rem res fin].
    cbn [ls_finished ls_remaining ls_res ls_rng] in *.
    assert (rem = 0) by lia. subst rem.
    cbn [for_each blocks bind]. do 2 f_equal.
    + rewrite app_nil_r, firstn_all2; [reflexivity|]. lia.
    + lia.
  - destruct js as [|j js]; [discriminate|]. injection Hjs as Hjs.
    destruct s as [rng rem res fin].
    cbn [ls_finished ls_remaining ls_res ls_rng] in *.
    cbn [for_each blocks]. rewrite wrapper_body_count.
    cbn [ls_finished ls_remaining ls_res ls_rng]. cbv zeta.
    assert (Hp : 0 <= Z.of_nat k * bs) by (apply Z.mul_nonneg_nonneg; lia).
    set (count := Z.min bs rem) in *.
    assert (Hc : 1 <= count <= rem) by lia.
    pose proof (adf_simulation_outcome n trend count rng) as Ho.
    destruct (adf_simulation n trend count (Some rng)) as [[stat rng1]|e];
      [|reflexivity].
    destruct Ho as (_ & _ & _ & Hstat & _). cbn [bind].
    rewrite assign_slice_inside by lia. cbn [bind].
    rewrite IH; cbn [ls_finished ls_remaining ls_res ls_rng];
      try assumption; try lia.
    + destruct (blocks n trend bs k rng1 (rem - count)) as [[rest rng2]|e];
        [|reflexivity].
      cbn [bind]. do 2 f_equal.
      * rewrite firstn_app, firstn_firstn, length_firstn.
        replace (Nat.min (Z.to_nat (fin + count)) (Z.to_nat fin))
          with (Z.to_nat fin) by lia.
        replace (Z.to_nat (fin + count)
                 - Nat.min (Z.to_nat fin) (length res))%nat
          with (length stat) by lia.
        rewrite firstn_app, firstn_all, Nat.sub_diag, firstn_O, app_nil_r.
        now rewrite <- app_assoc.
      * lia.
    + rewrite !length_app, length_firstn, length_skipn. lia.
Qed.


Lemma nblocks_covers b bs :
  1 <= bs -> 0 <= b ->
  (Z.of_nat (nblocks b bs) - 1) * bs < b <= Z.of_nat (nblocks b bs) * bs.
Proof.
  intros Hbs Hb. unfold nblocks.
  assert (0 <= (b + bs - 1) / bs) by (apply Z.div_pos; lia).
  rewrite Z2Nat.id by assumption.
  pose proof (Z.div_mod (b + bs - 1) bs ltac:(lia)) as E.
  pose proof (Z.mod_pos_bound (b + bs - 1) bs ltac:(lia)) as Hm.
  nia.
Qed.

Lemma py_range_blocks b bs :
  1 <= bs -> 0 <= b ->
  exists js, py_range 0 b bs = Ok js /\ length js = nblocks b bs.
Proof.
  intros Hbs Hb. unfold py_range, nblocks.
  destruct (Z.eqb_spec bs 0); [lia|].
  destruct (Z.ltb_spec 0 bs); [|lia].
  eexists; split; [reflexivity|]. rewrite length_map, length_seq. f_equal.
  destruct (Z.ltb_spec 0 b).
  - rewrite Z.sub_0_r.
    replace (b + bs - 1) with (b - 1 + 1 * bs) by lia.
    rewrite Z.div_add by lia. reflexivity.
  - assert (b = 0) by lia. subst b. rewrite Z.div_small by lia. reflexivity.
Qed.

Lemma wrapper_blocks_as_blocks n trend b seed bs :
  1 <= bs -> 0 <= b ->
  wrapper_blocks n trend b seed bs (repeat F0 (Z.to_nat b))
  = (' (v, _) <- blocks n trend bs (nblocks b bs) (mkRandomState seed 0) b ;;
     Ok v).
Proof.
  intros Hbs Hb. unfold wrapper_blocks.
  destruct (py_range_blocks b bs Hbs Hb) as (js & -> & Hjs). cbn [bind].
  rewrite (for_each_blocks n trend bs Hbs (nblocks b bs));
    cbn [ls_finished ls_remaining ls_res ls_rng]; try assumption; try lia.
  - destruct (blocks n trend bs (nblocks b bs) (mkRandomState seed 0) b)
      as [[v rng']|err]; reflexivity.
  - apply nblocks_covers; assumption.
  - rewrite repeat_length. reflexivity.
Qed.

Lemma wrapper_as_blocks m e n trend b seed bs :
  0 <= seed < 2 ^ 32 -> block_size m n = Ok bs -> 1 <= bs -> 0 <= b ->
  wrapper m e n trend b seed
  = (' (v, _) <- blocks n trend bs (nblocks b bs) (mkRandomState seed 0) b ;;
     Ok v).
Proof.
  intros Hs Ebs Hbs Hb. rewrite wrapper_seeded, Ebs by assumption.
  unfold zeros.
  rewrite dim_nonneg by assumption. cbn [bind].
  now apply wrapper_blocks_as_blocks.
Qed.

Lemma blocks_ok n trend bs z :
  trend_regressors trend (n - 1) = Ok z -> 0 <= n + 50 -> 1 <= bs ->
  forall k rng rem,
    0 <= rem -> (Z.of_nat k - 1) * bs < rem <= Z.of_nat k * bs ->
    exists v,
      blocks n trend bs k rng rem
      = Ok (v, mkRandomState (rs_key rng) (rs_pos rng + (n + 50) * rem))
      /\ length v = Z.to_nat rem.
Proof.
  intros Hz Hn Hbs k. induction k as [|k IH]; intros rng rem Hr Hk.
  - assert (rem = 0) by lia. subst rem. exists []. cbn [blocks].
    split; [|reflexivity]. destruct rng as [key pos]. cbn. do 3 f_equal. lia.
  - cbn [blocks]. cbv zeta.
    assert (Hp : 0 <= Z.of_nat k * bs) by (apply Z.mul_nonneg_nonneg; lia).
    set (count := Z.min bs rem).
    assert (Hc : 1 <= count <= rem) by lia.
    destruct (adf_simulation_ok n trend count rng z Hz Hn)
      as (stat & -> & Hstat); [lia|]. cbn [bind].
    destruct (IH (mkRandomState (rs_key rng)
                    (rs_pos rng + (n + 50) * count)) (rem - count))
      as (rest & -> & Hrest); [lia|lia|]. cbn [bind rs_key rs_pos].
    exists (stat ++ rest). split.
    + do 3 f_equal. lia.
    + rewrite length_app. lia.
Qed.

Lemma wrapper_ok m e n trend b seed :
  0 <= seed < 2 ^ 32 -> 0 <= b -> 0 < n ->
  8 * n <= 2 ^ 20 * m -> 2 ^ 20 * m < 2 ^ 53 ->
  exists v, wrapper m e n trend b seed = Ok v /\ Z.of_nat (length v) = b.
Proof.
  intros Hs Hb Hn Hm Hm53.
  assert (Hm0 : 0 <= m) by lia.
  pose proof (block_size_pos m n Hm0 Hm53 Hn ltac:(lia)) as Ebs.
  set (bs := 2 ^ 20 * m / (8 * n)) in *.
  assert (Hbs : 1 <= bs) by (apply Z.div_le_lower_bound; lia).
  destruct (trend_regressors_ok trend (n - 1)) as [z Hz]; [lia|].
  rewrite (wrapper_as_blocks m e n trend b seed bs Hs Ebs Hbs Hb).
  destruct (blocks_ok n trend bs z Hz ltac:(lia) Hbs (nblocks b bs)
              (mkRandomState seed 0) b Hb (nblocks_covers b bs Hbs Hb))
    as (v & -> & Hv).
  exists v. split; [reflexivity|lia].
Qed.

(** X2: the postcondition of the loop.  For a seed the generator accepts
    (0 <= seed < 2^32), b >= 0 and a sample size n > 0 whose block size is
    at least 1 (8 * n <= 2^20 * m, with 2^20 * m below 2^53), the loop
    makes b / bs passes (rounded up) and ends normally with
    [finished = b], [remaining = 0], an array of [b] entries, and the
    generator advanced by (n + 50) * b variates; [wrapper] returns that
    array. *)
Theorem wrapper_loop_postcondition (m e n : Z) (trend : string)
  (b seed : Z) :
  0 <= seed < 2 ^ 32 -> 0 <= b -> 0 < n ->
  8 * n <= 2 ^ 20 * m -> 2 ^ 20 * m < 2 ^ 53 ->
  exists bs js s,
    block_size m n = Ok bs /\ py_range 0 b bs = Ok js
    /\ Z.of_nat (length js) = (b + bs - 1) / bs
    /\ for_each (wrapper_body n trend bs) js
         (mkLoop (mkRandomState seed 0) b (repeat F0 (Z.to_nat b)) 0) = Ok s
    /\ ls_finished s = b /\ ls_remaining s = 0
    /\ ls_rng s = mkRandomState seed ((n + 50) * b)
    /\ Z.of_nat (length (ls_res s)) = b
    /\ wrapper m e n trend b seed = Ok (ls_res s).
Proof.
  intros Hs Hb Hn Hm Hm53.
  assert (Hm0 : 0 <= m) by lia.
  pose proof (block_size_pos m n Hm0 Hm53 Hn ltac:(lia)) as Ebs.
  set (bs := 2 ^ 20 * m / (8 * n)) in *.
  assert (Hbs : 1 <= bs) by (apply Z.div_le_lower_bound; lia).
  destruct (py_range_blocks b bs Hbs Hb) as (js & Ejs & Hjs).
  destruct (trend_regressors_ok trend (n - 1)) as [z Hz]; [lia|].
  destruct (blocks_ok n trend bs z Hz ltac:(lia) Hbs (nblocks b bs)
              (mkRandomState seed 0) b Hb (nblocks_covers b bs Hbs Hb))
    as (v & Ev & Hv).
  cbn [rs_key rs_pos] in Ev.
  pose proof (for_each_blocks n trend bs Hbs (nblocks b bs) js
                (mkLoop (mkRandomState seed 0) b (repeat F0 (Z.to_nat b)) 0)
                Hjs) as Eloop.
  cbn [ls_finished ls_remaining ls_res ls_rng] in Eloop.
  rewrite Ev in Eloop. cbn [bind firstn app] in Eloop.
  specialize (Eloop ltac:(lia) Hb (nblocks_covers b bs Hbs Hb)
                ltac:(now rewrite repeat_length)).
  exists bs, js. eexists. split; [exact Ebs|]. split; [exact Ejs|].
  split.
  { rewrite Hjs. unfold nblocks. apply Z2Nat.id. apply Z.div_pos; lia. }
  split; [exact Eloop|]. cbn [ls_finished ls_remaining ls_res ls_rng].
  change (Z.to_nat 0) with 0%nat in *. cbn [firstn app] in *.
  split; [lia|]. split; [reflexivity|]. split; [f_equal; lia|].
  split; [lia|].
  rewrite wrapper_seeded, Ebs by assumption. unfold zeros, wrapper_blocks.
  rewrite dim_nonneg by assumption. cbn [bind].
  rewrite Ejs. cbn [bind]. rewrite Eloop. reflexivity.
Qed.


Lemma nblocks_add q r bs :
  1 <= bs -> 0 <= q -> 0 <= r ->
  nblocks (q * bs + r) bs = (Z.to_nat q + nblocks r bs)%nat.
Proof.
  intros Hbs Hq Hr. unfold nblocks.
  replace (q * bs + r + bs - 1) with (q * bs + (r + bs - 1)) by lia.
  rewrite Z.div_add_l by lia.
  rewrite Z2Nat.inj_add; [reflexivity|lia|apply Z.div_pos; lia].
Qed.

Lemma nblocks_exact q bs :
  1 <= bs -> 0 <= q -> nblocks (q * bs) bs = Z.to_nat q.
Proof.
  intros Hbs Hq. replace (q * bs) with (q * bs + 0) by lia.
  rewrite nblocks_add by lia. unfold nblocks.
  rewrite Z.div_small by lia. cbn. lia.
Qed.

(** The first [k] whole blocks of a longer run are the run of those
    blocks alone. *)
Lemma blocks_split n trend bs :
  1 <= bs ->
  forall k k' rng r,
    0 <= r ->
    blocks n trend bs (k + k') rng (Z.of_nat k * bs + r)
    = (' (v1, rng1) <- blocks n trend bs k rng (Z.of_nat k * bs) ;;
       ' (v2, rng2) <- blocks n trend bs k' rng1 r ;;
       Ok (v1 ++ v2, rng2)).
Proof.
  intros Hbs k. induction k as [|k IH]; intros k' rng r Hr.
  - cbn [Nat.add blocks bind]. change (Z.of_nat 0 * bs + r) with r.
    destruct (blocks n trend bs k' rng r) as [[v2 rng2]|e]; reflexivity.
  - cbn [Nat.add blocks]. cbv zeta.
    assert (Hp : 0 <= Z.of_nat k * bs) by (apply Z.mul_nonneg_nonneg; lia).
    replace (Z.min bs (Z.of_nat (S k) * bs + r)) with bs by lia.
    replace (Z.min bs (Z.of_nat (S k) * bs)) with bs by lia.
    replace (Z.of_nat (S k) * bs + r - bs) with (Z.of_nat k * bs + r) by lia.
    replace (Z.of_nat (S k) * bs - bs) with (Z.of_nat k * bs) by lia.
    destruct (adf_simulation n trend bs (Some rng)) as [[stat rng1]|e];
      [|reflexivity].
    cbn [bind]. rewrite IH by assumption.
    destruct (blocks n trend bs k rng1 (Z.of_nat k * bs)) as [[v1 rng2]|e];
      [|reflexivity].
    cbn [bind].
    destruct (blocks n trend bs k' rng2 r) as [[v2 rng3]|e]; [|reflexivity].
    cbn [bind]. now rewrite app_assoc.
Qed.


(** X3: each block of the vector can be recomputed on its own.  In a run
    that succeeds (0 <= seed < 2^32, n > 0, block size bs >= 1), block
    number q of the vector returned by [wrapper] is the statistic of one
    call of [adf_simulation] for min(bs, b - q * bs) replications on a
    generator that has already handed out q * bs * (n + 50) variates of
    the seeded stream. *)
Theorem wrapper_block_reproducible (m e n : Z) (trend : string)
  (b seed bs q : Z) :
  0 <= seed < 2 ^ 32 ->
  block_size m n = Ok bs -> 1 <= bs -> 0 < n -> 0 <= q -> q * bs < b ->
  exists v stat rng',
    wrapper m e n trend b seed = Ok v
    /\ adf_simulation n trend (Z.min bs (b - q * bs))
         (Some (mkRandomState seed (q * bs * (n + 50)))) = Ok (stat, rng')
    /\ Z.of_nat (length stat) = Z.min bs (b - q * bs)
    /\ firstn (length stat) (skipn (Z.to_nat (q * bs)) v) = stat.
Proof.
  intros Hs Ebs Hbs Hn Hq Hb.
  assert (Hk : q = Z.of_nat (Z.to_nat q)) by lia.
  revert Hb. rewrite Hk. generalize (Z.to_nat q) as k. clear q Hq Hk.
  intros k Hb.
  assert (Hqb : 0 <= Z.of_nat k * bs) by (apply Z.mul_nonneg_nonneg; lia).
  destruct (trend_regressors_ok trend (n - 1)) as [z Hz]; [lia|].
  rewrite (wrapper_as_blocks m e n trend b seed bs Hs Ebs Hbs) by lia.
  set (r := b - Z.of_nat k * bs).
  assert (Hr : 0 < r) by (unfold r; lia).
  replace (nblocks b bs) with (k + nblocks r bs)%nat
    by (replace b with (Z.of_nat k * bs + r) by (unfold r; lia);
        rewrite nblocks_add, Nat2Z.id by lia; reflexivity).
  pose proof (nblocks_covers r bs Hbs ltac:(lia)) as Hcov.
  destruct (nblocks r bs) as [|k2] eqn:Ek2; [lia|].
  replace (blocks n trend bs (k + S k2) (mkRandomState seed 0) b)
    with (blocks n trend bs (k + S k2) (mkRandomState seed 0)
            (Z.of_nat k * bs + r))
    by (f_equal; unfold r; lia).
  rewrite blocks_split by lia.
  destruct (blocks_ok n trend bs z Hz ltac:(lia) Hbs k
              (mkRandomState seed 0) (Z.of_nat k * bs))
    as (v1 & -> & Hv1); [lia|lia|].
  cbn [bind rs_key rs_pos blocks]. cbv zeta.
  replace (0 + (n + 50) * (Z.of_nat k * bs))
    with (Z.of_nat k * bs * (n + 50)) by lia.
  set (count := Z.min bs r).
  destruct (adf_simulation_ok n trend count
              (mkRandomState seed (Z.of_nat k * bs * (n + 50))) z Hz)
    as (stat & Estat & Hstat); [lia|unfold count; lia|].
  rewrite Estat. cbn [bind rs_key rs_pos].
  assert (Hp : 0 <= Z.of_nat k2 * bs) by (apply Z.mul_nonneg_nonneg; lia).
  destruct (blocks_ok n trend bs z Hz ltac:(lia) Hbs k2
              (mkRandomState seed
                 (Z.of_nat k * bs * (n + 50) + (n + 50) * count))
              (r - count))
    as (rest & -> & Hrest); [unfold count; lia|unfold count; lia|].
  cbn [bind]. exists (v1 ++ stat ++ rest), stat. eexists.
  split; [reflexivity|]. split; [reflexivity|].
  split; [unfold count in *; lia|].
  rewrite skipn_app, skipn_all2 by lia.
  replace (Z.to_nat (Z.of_nat k * bs) - length v1)%nat with 0%nat by lia.
  cbn [skipn app]. rewrite firstn_app, firstn_all, Nat.sub_diag, firstn_O.
  apply app_nil_r.
Qed.

(** X4: adding replications does not change those already there, as long
    as whole blocks are kept.  In a run that succeeds (0 <= seed < 2^32,
    n > 0, block size bs >= 1), the vector [wrapper] returns for q whole
    blocks is the beginning of the vector it returns for any larger [b]
    with the same seed. *)
Theorem wrapper_whole_blocks_prefix (m e n : Z) (trend : string)
  (b seed bs q : Z) :
  0 <= seed < 2 ^ 32 ->
  block_size m n = Ok bs -> 1 <= bs -> 0 < n -> 0 <= q -> q * bs <= b ->
  exists v1 v,
    wrapper m e n trend (q * bs) seed = Ok v1
    /\ wrapper m e n trend b seed = Ok v
    /\ Z.of_nat (length v1) = q * bs
    /\ v1 = firstn (Z.to_nat (q * bs)) v.
Proof.
  intros Hs Ebs Hbs Hn Hq Hb.
  assert (Hk : q = Z.of_nat (Z.to_nat q)) by lia.
  revert Hb. rewrite Hk. generalize (Z.to_nat q) as k. clear q Hq Hk.
  intros k Hb.
  assert (Hqb : 0 <= Z.of_nat k * bs) by (apply Z.mul_nonneg_nonneg; lia).
  destruct (trend_regressors_ok trend (n - 1)) as [z Hz]; [lia|].
  rewrite !(wrapper_as_blocks m e n trend _ seed bs Hs Ebs Hbs) by lia.
  rewrite nblocks_exact, Nat2Z.id by lia.
  set (r := b - Z.of_nat k * bs).
  assert (Hr : 0 <= r) by (unfold r; lia).
  replace (nblocks b bs) with (k + nblocks r bs)%nat
    by (replace b with (Z.of_nat k * bs + r) by (unfold r; lia);
        rewrite nblocks_add, Nat2Z.id by lia; reflexivity).
  replace (blocks n trend bs (k + nblocks r bs) (mkRandomState seed 0) b)
    with (blocks n trend bs (k + nblocks r bs) (mkRandomState seed 0)
            (Z.of_nat k * bs + r))
    by (f_equal; unfold r; lia).
  rewrite blocks_split by lia.
  destruct (blocks_ok n trend bs z Hz ltac:(lia) Hbs k
              (mkRandomState seed 0) (Z.of_nat k * bs))
    as (v1 & -> & Hv1); [lia|lia|].
  cbn [bind rs_key rs_pos].
  destruct (blocks_ok n trend bs z Hz ltac:(lia) Hbs (nblocks r bs)
              (mkRandomState seed (0 + (n + 50) * (Z.of_nat k * bs))) r)
    as (v2 & -> & Hv2); [lia|apply nblocks_covers; lia|].
  cbn [bind]. exists v1, (v1 ++ v2).
  split; [reflexivity|]. split; [reflexivity|].
  split; [lia|].
  rewrite firstn_app, <- Hv1, firstn_all, Nat.sub_diag, firstn_O.
  symmetry. apply app_nil_r.
Qed.

Lemma nblocks_one b bs : 1 <= b -> b <= bs -> nblocks b bs = 1%nat.
Proof.
  intros Hb Hbs. unfold nblocks.
  replace (b + bs - 1) with (b - 1 + 1 * bs) by lia.
  rewrite Z.div_add, Z.div_small by lia. reflexivity.
Qed.

(** X5: a run that fits in one block is one call of [adf_simulation].  When
    0 <= seed < 2^32 and 1 <= b <= block size, [wrapper] returns the
    statistic (or raises the error) of [adf_simulation(n, trend, b, rng)]
    on the generator seeded with [seed]; with the default seed 0 that is
    [adf_simulation] called without a generator. *)
Theorem wrapper_single_block (m e n : Z) (trend : string) (b seed bs : Z) :
  0 <= seed < 2 ^ 32 ->
  block_size m n = Ok bs -> 1 <= b -> b <= bs ->
  wrapper m e n trend b seed
  = (' (stat, _) <- adf_simulation n trend b (Some (mkRandomState seed 0)) ;;
     Ok stat)
  /\ wrapper m e n trend b 0
     = (' (stat, _) <- adf_simulation n trend b None ;; Ok stat).
Proof.
  intros Hs Ebs Hb Hbs.
  assert (E : forall s,
             0 <= s < 2 ^ 32 ->
             wrapper m e n trend b s
             = (' (stat, _) <- adf_simulation n trend b
                                 (Some (mkRandomState s 0)) ;;
                Ok stat)).
  { intros s Hs'.
    rewrite (wrapper_as_blocks m e n trend b s bs Hs' Ebs) by lia.
    rewrite nblocks_one by assumption. cbn [blocks]. cbv zeta.
    replace (Z.min bs b) with b by lia.
    destruct (adf_simulation n trend b (Some (mkRandomState s 0)))
      as [[stat rng1]|err]; [|reflexivity].
    cbn [bind]. now rewrite app_nil_r. }
  split; [now apply E|]. rewrite E by lia. reflexivity.
Qed.

(** X6: a negative sample size is not rejected.  For a seed the generator
    accepts and n < 0 with a budget of at least 8 * |n| bytes (and
    2^20 * m below 2^53) the block size is negative, the range of the loop
    is empty, and [wrapper] returns the [b] zeros it started from without
    simulating anything. *)
Theorem wrapper_negative_sample_size (m e n : Z) (trend : string)
  (b seed : Z) :
  0 <= seed < 2 ^ 32 ->
  n < 0 -> 8 * - n <= 2 ^ 20 * m -> 2 ^ 20 * m < 2 ^ 53 -> 0 <= b ->
  wrapper m e n trend b seed = Ok (repeat F0 (Z.to_nat b)).
Proof.
  intros Hs Hn Hm Hm53 Hb. rewrite wrapper_seeded by assumption.
  unfold zeros. rewrite dim_nonneg by assumption. cbn [bind].
  rewrite block_size_exact by lia. cbn [bind].
  replace (8 * n) with (- (8 * - n)) by lia.
  rewrite Z.quot_opp_r by lia.
  rewrite Z.quot_div_nonneg by lia.
  assert (Hq : 1 <= 2 ^ 20 * m / (8 * - n))
    by (apply Z.div_le_lower_bound; lia).
  unfold wrapper_blocks, py_range.
  destruct (Z.eqb_spec (- (2 ^ 20 * m / (8 * - n))) 0); [lia|].
  destruct (Z.ltb_spec 0 (- (2 ^ 20 * m / (8 * - n)))); [lia|].
  destruct (Z.ltb_spec b 0); [lia|].
  reflexivity.
Qed.

(** X17: a block fits the budget.  With a budget and a sample size that
    binary64 holds exactly (0 <= 2^20 * m < 2^53, 0 < n < 2^53), the
    number of replications a pass of the loop asks for is at most the
    block size, and 8 bytes times n times that number is at most
    2^20 * m: the n rows of the working array that the block size counts
    stay within the budget (the 50 rows of burn-in come on top). *)
Theorem block_fits_budget (m n bs : Z) (s : loop_state) :
  block_size m n = Ok bs ->
  0 <= m -> 2 ^ 20 * m < 2 ^ 53 -> 0 < n -> n < 2 ^ 53 ->
  0 <= ls_remaining s ->
  let count := if bs <? ls_remaining s then bs else ls_remaining s in
  0 <= count <= bs /\ 8 * n * count <= 2 ^ 20 * m.
Proof.
  intros Ebs Hm Hm53 Hn Hn53 Hr count. subst count.
  rewrite block_size_pos in Ebs by assumption.
  assert (E : bs = 2 ^ 20 * m / (8 * n)) by congruence. clear Ebs.
  assert (H0 : 0 <= bs) by (rewrite E; apply Z.div_pos; lia).
  assert (Hle : 8 * n * bs <= 2 ^ 20 * m)
    by (rewrite E; apply Z.mul_div_le; lia).
  clear E. set (budget := 2 ^ 20 * m) in *.
  destruct (Z.ltb_spec bs (ls_remaining s)).
  - split; [lia | exact Hle].
  - split; [lia | nia].
Qed.

(** X7: the errors [wrapper] raises before it simulates, in the order the
    code meets them: a seed outside 0 .. 2^32 - 1 raises [ValueError] (from
    [rng.seed]) whatever the other arguments are; otherwise a negative [b]
    raises [ValueError] (from [zeros]); otherwise n = 0 raises
    [ZeroDivisionError]; otherwise, for operands binary64 holds exactly, a
    budget with 2^20 * |m| < 8 * |n| gives block size 0 and raises
    [ValueError] (from [range]). *)
Theorem wrapper_errors (m e n : Z) (trend : string) (b seed : Z) :
  (seed < 0 \/ 2 ^ 32 <= seed ->
   wrapper m e n trend b seed = Raise ValueError) /\
  (0 <= seed < 2 ^ 32 -> b < 0 ->
   wrapper m e n trend b seed = Raise ValueError) /\
  (0 <= seed < 2 ^ 32 -> 0 <= b -> Z.abs m < 2 ^ 53 -> n = 0 ->
   wrapper m e n trend b seed = Raise ZeroDivisionError) /\
  (0 <= seed < 2 ^ 32 -> 0 <= b -> n <> 0 -> Z.abs n < 2 ^ 53 ->
   Z.abs (2 ^ 20 * m) < 2 ^ 53 -> Z.abs (2 ^ 20 * m) < Z.abs (8 * n) ->
   wrapper m e n trend b seed = Raise ValueError).
Proof.
  split; [|split; [|split]].
  - intros Hs. now rewrite wrapper_unfold, RandomState_seed_invalid.
  - intros Hs Hb. rewrite wrapper_seeded by assumption.
    unfold zeros. now rewrite dim_neg.
  - intros Hs Hb Hm ->. rewrite wrapper_seeded by assumption.
    unfold zeros. rewrite dim_nonneg by assumption. cbn [bind].
    now rewrite block_size_zero_division.
  - intros Hs Hb Hn Hn53 Hm53 Hm. rewrite wrapper_seeded by assumption.
    unfold zeros. rewrite dim_nonneg by assumption. cbn [bind].
    rewrite block_size_exact by assumption. cbn [bind].
    replace (Z.quot (2 ^ 20 * m) (8 * n)) with 0; [reflexivity|].
    symmetry. apply Z.quot_small_iff; [lia|assumption].
Qed.

End BlockedRunProperties.

Section NoObservation.
Context {D : DType} {L : Library D}.

Lemma map_const {A B : Type} (b : B) (l : list A) :
  map (fun _ => b) l = repeat b (length l).
Proof.
  induction l as [|a l IH]; cbn [map length repeat]; now rewrite ?IH.
Qed.

Lemma short_path_lhs (l : list F) :
  (length l <= 51)%nat -> skipn 1 (skipn 50 l) = [].
Proof.
  intros H. rewrite skipn_skipn. apply skipn_all2. cbn. lia.
Qed.

Lemma short_path_rhs (l : list F) :
  (length l <= 51)%nat -> removelast (skipn 50 l) = [].
Proof.
  intros H. pose proof (length_skipn 50 l) as E.
  destruct (skipn 50 l) as [|a [|a' r]]; cbn in E |- *; auto; lia.
Qed.

(** With at most one observation and no regressor matrix, [lhs] and [rhs]
    have no row, and every statistic is 0 * (0 / 0 - 1) in the element
    type's arithmetic. *)
Lemma adf_simulation_no_observation n trend b rng :
  has_regressors trend = false -> -50 <= n <= 1 -> 0 <= b ->
  adf_simulation n trend b (Some rng)
  = Ok (repeat (Fmul (Fof_Z 0) (Fsub (Fdiv F0 F0) F1)) (Z.to_nat b),
        mkRandomState (rs_key rng) (rs_pos rng + (n + 50) * b)).
Proof.
  intros Hreg Hn Hb. unfold adf_simulation.
  rewrite trend_regressors_none by assumption. cbn [bind].
  rewrite standard_normal_spec by lia. cbn [bind detrend].
  set (cols := spec_draws rng (Z.to_nat (n + 50)) (Z.to_nat b)).
  assert (Hcols : forall c, In c cols -> (length (cumsum c) <= 51)%nat).
  { intros c Hc. rewrite cumsum_length.
    rewrite (spec_draws_column_length _ _ _ _ Hc). lia. }
  rewrite !map_map.
  rewrite (ar1_statistic_columns _ _ 0%nat)
    by (intros c Hc; rewrite short_path_lhs; auto).
  do 2 f_equal.
  transitivity (map (fun _ : list F =>
                       Fmul (Fof_Z 0) (Fsub (Fdiv F0 F0) F1)) cols).
  - apply map_ext_in. intros c Hc.
    rewrite short_path_lhs, short_path_rhs by auto. reflexivity.
  - rewrite map_const. unfold cols, spec_draws.
    now rewrite length_map, length_seq.
Qed.

End NoObservation.

(** X8: a sample size below 2 is not rejected.  In binary64, for
    -50 <= n <= 1, b >= 0 and a tag without regressor matrix,
    [adf_simulation] returns [b] statistics and every one of them is NaN:
    the regression has no observation and divides zero by zero. *)
Theorem adf_simulation_no_observation_nan (L : Library float64)
  (n : Z) (trend : string) (b : Z) (rng : RandomState) :
  has_regressors trend = false -> -50 <= n <= 1 -> 0 <= b ->
  exists stat rng',
    @adf_simulation float64 L n trend b (Some rng) = Ok (stat, rng')
    /\ length stat = Z.to_nat b
    /\ Forall (fun v => PrimFloat.is_nan v = true) stat.
Proof.
  intros Hreg Hn Hb.
  rewrite (@adf_simulation_no_observation float64 L) by assumption.
  do 2 eexists. split; [reflexivity|]. split.
  - apply repeat_length.
  - apply Forall_forall. intros v Hv. apply repeat_spec in Hv. subst v.
    vm_compute. reflexivity.
Qed.

Lemma append_length (a b : string) :
  String.length (a ++ b) = (String.length a + String.length b)%nat.
Proof.
  induction a as [|c a IH]; cbn; auto.
Qed.

Lemma append_inj_l (a b s : string) :
  (a ++ s)%string = (b ++ s)%string -> a = b.
Proof.
  revert b; induction a as [|c a IH]; intros [|d b] H; auto.
  - apply (f_equal String.length) in H. cbn in H.
    rewrite append_length in H. lia.
  - apply (f_equal String.length) in H. cbn in H.
    rewrite append_length in H. lia.
  - cbn in H. injection H as -> H. f_equal. now apply IH.
Qed.

Section DriverProperties.
Context {D : DType} {L : Library D}.

(** The checkpoints one trend writes. *)
Lemma save_of_run_trend tr f i :
  In (Save f i) (run_trend tr) <->
  f = ("adf_z_" ++ tr ++ ".npz")%string
  /\ ((0 <= i < EX_NUM /\ i mod 50 = 0) \/ i = EX_NUM - 1).
Proof.
  unfold run_trend. rewrite in_app_iff, in_flat_map. split.
  - intros [(k & Hk & H)|[H|[]]].
    + apply in_map_iff in Hk. destruct Hk as (j & <- & Hj).
      apply in_seq in Hj. unfold experiment, dispatch in H.
      apply in_app_or in H. destruct H as [H|H].
      * apply in_map_iff in H. destruct H as (t & E & _). discriminate E.
      * destruct (Z.eqb_spec (Z.of_nat j mod 50) 0) as [E|E];
          [|contradiction].
        destruct H as [H|[]]. injection H as <- <-.
        split; [reflexivity|]. left. split; [lia|assumption].
    + injection H as <- <-. auto.
  - intros (-> & [[Hi Hm]| ->]).
    + left. exists i. split.
      * apply in_map_iff. exists (Z.to_nat i). split; [lia|].
        apply in_seq. lia.
      * unfold experiment. apply in_or_app. right.
        rewrite Hm. cbn. now left.
    + right. now left.
Qed.


(** X11: a checkpoint file belongs to one trend.  Two trends that save to
    the same file name are the same trend, for any tags at all. *)
Theorem checkpoint_file_of_one_trend (tr1 tr2 f : string) (i1 i2 : Z) :
  In (Save f i1) (run_trend tr1) -> In (Save f i2) (run_trend tr2) ->
  tr1 = tr2.
Proof.
  intros H1 H2. apply save_of_run_trend in H1, H2.
  destruct H1 as [-> _], H2 as [E _].
  cbn in E. injection E as E. now apply append_inj_l in E.
Qed.

(** X12: the seeds are acceptable to the generator.  If
    [random_integers(low, high)] keeps to its range, as NumPy documents,
    every entry of the seed schedule lies in 0 .. 2^31 - 2, inside the
    range 0 .. 2^32 - 1 that [RandomState.seed] accepts. *)
Theorem seeds_in_range :
  (forall key k low high,
     low <= high -> low <= rand_int key k low high <= high) ->
  Forall (fun s => 0 <= s <= 2 ^ 31 - 2 /\ s < 2 ^ 32) seeds.
Proof.
  intros Hrand.
  unfold seeds, random_integers. apply Forall_forall. intros s Hs.
  apply in_map_iff in Hs. destruct Hs as (k & <- & _).
  pose proof (Hrand 0 (Z.of_nat k) 0 (2 ^ 31 - 2) ltac:(lia)). lia.
Qed.

Lemma sample_sizes_fit :
  Forall (fun t => 0 < t /\ 8 * t <= 2 ^ 20 * MAX_MEMORY_SIZE) T.
Proof.
  unfold T, MAX_MEMORY_SIZE. cbn [rev app].
  repeat (constructor; [lia|]). constructor.
Qed.

Lemma call_of_main i n tr b seed :
  In (Call i n tr b seed) main ->
  0 <= i < EX_NUM /\ In n T /\ b = EX_SIZE
  /\ seed = nth (Z.to_nat i) seeds 0.
Proof.
  intros [H|H]; [discriminate|].
  apply in_flat_map in H. destruct H as (tr' & _ & H).
  apply in_run_trend in H.
  destruct H as [(i' & t & Hi & Ht & E)|(f & i' & E)]; [|discriminate].
  injection E as -> -> -> -> ->. auto.
Qed.

Lemma call_in_main tr i t :
  In tr trends -> 0 <= i < EX_NUM -> In t T ->
  In (Call i t tr EX_SIZE (nth (Z.to_nat i) seeds 0)) main.
Proof.
  intros Htr Hi Ht. right. apply in_flat_map. exists tr.
  split; [assumption|]. unfold run_trend. apply in_or_app. left.
  apply in_flat_map. exists i. split.
  - apply in_map_iff. exists (Z.to_nat i). split; [lia|].
    apply in_seq. lia.
  - unfold experiment, dispatch. apply in_or_app. left.
    apply in_map_iff. eauto.
Qed.

Lemma nth_seeds_in_range i :
  (forall key k low high,
     low <= high -> low <= rand_int key k low high <= high) ->
  0 <= i < EX_NUM -> 0 <= nth (Z.to_nat i) seeds 0 < 2 ^ 32.
Proof.
  intros Hrand Hi.
  assert (Hin : In (nth (Z.to_nat i) seeds 0) seeds).
  { apply nth_In. unfold seeds, random_integers.
    rewrite length_map, length_seq. lia. }
  set (sd := nth (Z.to_nat i) seeds 0) in *.
  unfold seeds, random_integers in Hin.
  apply in_map_iff in Hin. destruct Hin as (k & <- & _).
  pose proof (Hrand 0 (Z.of_nat k) 0 (2 ^ 31 - 2) ltac:(lia)). lia.
Qed.

(** X9: the calls the driver makes all succeed.  If
    [random_integers(low, high)] keeps to its range, every call of
    [wrapper] that the main block dispatches (a sample size of the grid
    [T], any of the four trends, [EX_SIZE] replications, the seed
    [seeds[i]], the script's budget) raises nothing and returns [EX_SIZE]
    statistics. *)
Theorem driver_calls_succeed (e i n : Z) (tr : string) (b seed : Z) :
  (forall key k low high,
     low <= high -> low <= rand_int key k low high <= high) ->
  In (Call i n tr b seed) main ->
  exists v,
    wrapper MAX_MEMORY_SIZE e n tr b seed = Ok v
    /\ Z.of_nat (length v) = EX_SIZE.
Proof.
  intros Hrand Hcall.
  destruct (call_of_main _ _ _ _ _ Hcall) as (Hi & Ht & -> & ->).
  pose proof sample_sizes_fit as H.
  rewrite Forall_forall in H. destruct (H n Ht) as [H1 H2].
  apply wrapper_ok;
    [now apply nth_seeds_in_range | unfold EX_SIZE; lia | assumption
    | assumption | unfold MAX_MEMORY_SIZE; lia].
Qed.

End DriverProperties.

Section ConstantTrend.

Context {D : DType} {L : Library D}.
Variables (Fopp : F -> F) (Finv : F -> F).
Hypothesis Fth :
  field_theory F0 F1 Fadd Fmul Fsub Fopp Fdiv Finv (@eq F).

Add Ring F_ring_more : (F_R Fth).

Lemma zip_sub_repeat (x : list F) k :
  zip_with Fsub x (repeat k (length x)) = map (fun v => Fsub v k) x.
Proof.
  induction x as [|a x IH]; cbn [length repeat zip_with map]; auto.
  now rewrite IH.
Qed.

Lemma sum_map_add (x : list F) a :
  sum (map (fun v => Fadd v a) x)
  = Fadd (sum x) (Fmul a (sum (repeat F1 (length x)))).
Proof.
  induction x as [|v x IH]; cbn [map length repeat].
  - cbn [sum]. ring.
  - rewrite !(sum_cons Fopp Finv Fth), IH. ring.
Qed.

(** The projection of one series on the column of ones, once the
    pseudo-inverse is known to satisfy the Penrose conditions: the
    constant [c * sum(series)] is taken off every entry, with
    [c * (number of rows) = 1]. *)
Lemma project_constant (n : Z) (z : list (list F)) :
  2 <= n ->
  trend_regressors "c" (n - 1) = Ok (Some z) ->
  moore_penrose z (pinv z) ->
  exists c,
    Fmul c (sum (repeat F1 (Z.to_nat (n - 1)))) = F1 /\
    forall x, length x = Z.to_nat (n - 1) ->
      project z (pinv z) [x] = [map (fun v => Fsub v (Fmul c (sum x))) x].
Proof.
  intros Hn Hz Hmp.
  unfold trend_regressors in Hz. cbn [String.eqb Ascii.eqb Bool.eqb] in Hz.
  rewrite dim_nonneg in Hz by lia. cbn [bind] in Hz.
  injection Hz as <-.
  destruct (Z.to_nat (n - 1)) as [|m] eqn:Em; [lia|].
  destruct (pinv_ones_row Fopp Finv Fth m _ Hmp) as (c & p' & -> & Hc).
  exists c. split; [exact Hc|]. intros x Hx. rewrite <- Hx.
  rewrite (project_ones_column Fopp Finv Fth). now rewrite zip_sub_repeat.
Qed.

(** X13: detrending by a constant twice is detrending once.  In exact
    arithmetic, with [pinv] the Moore-Penrose pseudo-inverse, projecting
    the residual of the trend 'c' again leaves it unchanged. *)
Theorem constant_trend_projection_idempotent (n : Z) (z : list (list F))
  (series : list F) :
  2 <= n ->
  trend_regressors "c" (n - 1) = Ok (Some z) ->
  moore_penrose z (pinv z) ->
  length series = Z.to_nat (n - 1) ->
  exists residual,
    project z (pinv z) [series] = [residual]
    /\ project z (pinv z) [residual] = [residual].
Proof.
  intros Hn Hz Hmp Hlen.
  destruct (project_constant n z Hn Hz Hmp) as (c & Hc & Hp).
  rewrite (Hp series Hlen). eexists; split; [reflexivity|].
  rewrite Hp by now rewrite length_map.
  f_equal. rewrite map_map.
  assert (Hs : sum (map (fun v => Fsub v (Fmul c (sum series))) series)
               = F0).
  { rewrite <- zip_sub_repeat, (sum_sub_repeat Fopp Finv Fth), Hlen.
    transitivity (Fsub (sum series)
                    (Fmul (sum series)
                       (Fmul c (sum (repeat F1 (Z.to_nat (n - 1)))))));
      [ring|].
    rewrite Hc. ring. }
  rewrite Hs. apply map_ext. intros v. ring.
Qed.

(** X14: the residual of the trend 'c' does not see the level of the
    series.  In exact arithmetic, adding one constant to every
    observation leaves the detrended series unchanged. *)
Theorem constant_trend_shift_invariant (n : Z) (z : list (list F))
  (series : list F) (a : F) :
  2 <= n ->
  trend_regressors "c" (n - 1) = Ok (Some z) ->
  moore_penrose z (pinv z) ->
  length series = Z.to_nat (n - 1) ->
  project z (pinv z) [map (fun v => Fadd v a) series]
  = project z (pinv z) [series].
Proof.
  intros Hn Hz Hmp Hlen.
  destruct (project_constant n z Hn Hz Hmp) as (c & Hc & Hp).
  rewrite (Hp series Hlen), Hp by now rewrite length_map.
  f_equal. rewrite map_map. apply map_ext. intros v.
  rewrite sum_map_add, Hlen.
  transitivity (Fsub (Fadd v a)
                  (Fadd (Fmul c (sum series))
                     (Fmul a (Fmul c (sum (repeat F1 (Z.to_nat (n - 1))))))));
    [ring|].
  rewrite Hc. ring.
Qed.

End ConstantTrend.

(** ** The regression formula, in exact arithmetic *)

Section Regression.

Context {D : DType} {L : Library D}.
Variables (Fopp : F -> F) (Finv : F -> F).
Hypothesis Fth :
  field_theory F0 F1 Fadd Fmul Fsub Fopp Fdiv Finv (@eq F).

Add Field F_field : Fth.

Lemma sum_products_scaled (k : F) (lhs rhs : list F) :
  sum (zip_with Fmul (map (Fmul k) rhs) (map (Fmul k) lhs))
  = Fmul (Fmul k k) (sum (zip_with Fmul rhs lhs)).
Proof.
  revert lhs; induction rhs as [|r rhs IH]; intros [|l lhs];
    cbn [map zip_with]; try (cbn [sum]; ring).
  rewrite !(sum_cons Fopp Finv Fth), IH. ring.
Qed.

Lemma sum_squares_scaled (k : F) (rhs : list F) :
  sum (map (fun v => Fmul v v) (map (Fmul k) rhs))
  = Fmul (Fmul k k) (sum (map (fun v => Fmul v v) rhs)).
Proof.
  induction rhs as [|r rhs IH]; cbn [map]; [cbn [sum]; ring|].
  rewrite !(sum_cons Fopp Finv Fth), IH. ring.
Qed.

Lemma sum_products_ar1 (k : F) (rhs : list F) :
  sum (zip_with Fmul rhs (map (Fmul k) rhs))
  = Fmul k (sum (map (fun v => Fmul v v) rhs)).
Proof.
  induction rhs as [|r rhs IH]; cbn [map zip_with]; [cbn [sum]; ring|].
  rewrite !(sum_cons Fopp Finv Fth), IH. ring.
Qed.

(** X15: the regression recovers an exact autoregression.  In exact
    arithmetic, when every observation is [k] times the one before it
    ([lhs = k * rhs]) and [rhs] is not degenerate, the statistic of the
    column is [nobs * (k - 1)]: zero for a series that repeats itself. *)
Theorem column_statistic_exact_ar1 (nobs : Z) (k : F) (rhs : list F) :
  sum (map (fun v => Fmul v v) rhs) <> F0 ->
  column_statistic nobs (map (Fmul k) rhs) rhs
  = Fmul (Fof_Z nobs) (Fsub k F1).
Proof.
  intros Hx. unfold column_statistic. rewrite sum_products_ar1.
  f_equal. f_equal. field. exact Hx.
Qed.

(** X16: the statistic does not see the scale of the series.  In exact
    arithmetic, multiplying [lhs] and [rhs] by one non-zero factor leaves
    the statistic of a non-degenerate column unchanged. *)
Theorem column_statistic_scale_invariant (nobs : Z) (k : F)
  (lhs rhs : list F) :
  k <> F0 -> sum (map (fun v => Fmul v v) rhs) <> F0 ->
  column_statistic nobs (map (Fmul k) lhs) (map (Fmul k) rhs)
  = column_statistic nobs lhs rhs.
Proof.
  intros Hk Hx. unfold column_statistic.
  rewrite sum_products_scaled, sum_squares_scaled.
  f_equal. f_equal. field. split; assumption.
Qed.

End Regression.

(** ** The further properties on concrete inputs *)

Lemma wrapper_loop_postcondition_witness :
  exists bs js s,
    block_size 100 50 = Ok bs /\ py_range 0 3 bs = Ok js
    /\ Z.of_nat (length js) = (3 + bs - 1) / bs
    /\ for_each (@wrapper_body Qc_dtype Qc_library 50 "c" bs) js
         (@mkLoop Qc_dtype (mkRandomState 7 0) 3
            (repeat (Q2Qc 0) (Z.to_nat 3)) 0)
       = Ok s
    /\ ls_finished s = 3 /\ ls_remaining s = 0
    /\ ls_rng s = mkRandomState 7 ((50 + 50) * 3)
    /\ Z.of_nat (length (ls_res s)) = 3
    /\ @wrapper Qc_dtype Qc_library 100 0 50 "c" 3 7 = Ok (ls_res s).
Proof.
  apply (@wrapper_loop_postcondition Qc_dtype Qc_library 100 0 50 "c" 3 7);
    lia.
Defined.

Lemma wrapper_block_reproducible_witness :
  exists v stat rng',
    @wrapper Qc_dtype Qc_library 1 0 100000 "nc" 2 0 = Ok v
    /\ @adf_simulation Qc_dtype Qc_library 100000 "nc"
         (Z.min 1 (2 - 1 * 1))
         (Some (mkRandomState 0 (1 * 1 * (100000 + 50)))) = Ok (stat, rng')
    /\ Z.of_nat (length stat) = Z.min 1 (2 - 1 * 1)
    /\ firstn (length stat) (skipn (Z.to_nat (1 * 1)) v) = stat.
Proof.
  apply (@wrapper_block_reproducible Qc_dtype Qc_library
           1 0 100000 "nc" 2 0 1 1);
    [lia | vm_compute; reflexivity | lia | lia | lia | lia].
Defined.

Lemma wrapper_whole_blocks_prefix_witness :
  exists v1 v,
    @wrapper Qc_dtype Qc_library 1 0 100000 "nc" (1 * 1) 0 = Ok v1
    /\ @wrapper Qc_dtype Qc_library 1 0 100000 "nc" 2 0 = Ok v
    /\ Z.of_nat (length v1) = 1 * 1
    /\ v1 = firstn (Z.to_nat (1 * 1)) v.
Proof.
  apply (@wrapper_whole_blocks_prefix Qc_dtype Qc_library
           1 0 100000 "nc" 2 0 1 1);
    [lia | vm_compute; reflexivity | lia | lia | lia | lia].
Defined.

Lemma wrapper_single_block_witness :
  @wrapper Qc_dtype Qc_library 100 0 50 "ct" 3 7
  = (' (stat, _) <- @adf_simulation Qc_dtype Qc_library 50 "ct" 3
                      (Some (mkRandomState 7 0)) ;;
     Ok stat)
  /\ @wrapper Qc_dtype Qc_library 100 0 50 "ct" 3 0
     = (' (stat, _) <- @adf_simulation Qc_dtype Qc_library 50 "ct" 3 None ;;
        Ok stat).
Proof.
  apply (@wrapper_single_block Qc_dtype Qc_library 100 0 50 "ct" 3 7 262144);
    [lia | vm_compute; reflexivity | lia | lia].
Defined.

Lemma wrapper_negative_sample_size_witness :
  @wrapper Qc_dtype Qc_library 100 0 (-5) "c" 3 0
  = Ok (repeat (Q2Qc 0) (Z.to_nat 3)).
Proof.
  apply (@wrapper_negative_sample_size Qc_dtype Qc_library 100 0 (-5) "c" 3 0);
    lia.
Defined.

Lemma adf_simulation_no_observation_nan_witness :
  exists stat rng',
    @adf_simulation float64 float_library 1 "nc" 2
      (Some (mkRandomState 0 0)) = Ok (stat, rng')
    /\ length stat = Z.to_nat 2
    /\ Forall (fun v => PrimFloat.is_nan v = true) stat.
Proof.
  apply (adf_simulation_no_observation_nan float_library 1 "nc" 2
           (mkRandomState 0 0)); [reflexivity | lia | lia].
Defined.

Lemma driver_calls_succeed_witness :
  exists v,
    @wrapper Qc_dtype Qc_library MAX_MEMORY_SIZE 0 2000 "ctt" EX_SIZE
      (nth (Z.to_nat 3) (@seeds Qc_dtype Qc_library) 0)
    = Ok v
    /\ Z.of_nat (length v) = EX_SIZE.
Proof.
  apply (@driver_calls_succeed Qc_dtype Qc_library 0 3 2000 "ctt" EX_SIZE
           (nth (Z.to_nat 3) (@seeds Qc_dtype Qc_library) 0)).
  - intros key k low high H. cbn.
    pose proof (Z.mod_pos_bound (key + k) (high - low + 1) ltac:(lia)). lia.
  - apply call_in_main; [simpl; auto | unfold EX_NUM; lia | simpl; auto].
Defined.

Lemma checkpoint_file_of_one_trend_witness :
  In (Save "adf_z_ct.npz" 50) (@run_trend Qc_dtype Qc_library "ct")
  /\ In (Save "adf_z_ct.npz" 499) (@run_trend Qc_dtype Qc_library "ct")
  /\ "ct"%string = "ct"%string.
Proof.
  assert (H1 : In (Save "adf_z_ct.npz" 50)
                 (@run_trend Qc_dtype Qc_library "ct"))
    by (apply save_of_run_trend; split;
        [reflexivity | left; split; [unfold EX_NUM; lia | reflexivity]]).
  assert (H2 : In (Save "adf_z_ct.npz" 499)
                 (@run_trend Qc_dtype Qc_library "ct"))
    by (apply save_of_run_trend; split; [reflexivity | right; reflexivity]).
  split; [exact H1|]. split; [exact H2|].
  exact (@checkpoint_file_of_one_trend Qc_dtype Qc_library
           "ct" "ct" "adf_z_ct.npz" 50 499 H1 H2).
Defined.

Lemma Qc_rand_int_in_range key k low high :
  low <= high -> low <= @rand_int Qc_dtype Qc_library key k low high <= high.
Proof.
  intros H. cbn.
  pose proof (Z.mod_pos_bound (key + k) (high - low + 1) ltac:(lia)). lia.
Qed.

Lemma seeds_in_range_witness :
  Forall (fun s => 0 <= s <= 2 ^ 31 - 2 /\ s < 2 ^ 32)
    (@seeds Qc_dtype Qc_library).
Proof.
  apply (@seeds_in_range Qc_dtype Qc_library). exact Qc_rand_int_in_range.
Defined.

Lemma constant_trend_projection_idempotent_witness :
  exists residual,
    @project Qc_dtype (repeat [Q2Qc 1] 3) (Qc_pinv (repeat [Q2Qc 1] 3))
      [[Q2Qc 1; Q2Qc 2; Q2Qc 6]] = [residual]
    /\ @project Qc_dtype (repeat [Q2Qc 1] 3) (Qc_pinv (repeat [Q2Qc 1] 3))
         [residual] = [residual].
Proof.
  apply (@constant_trend_projection_idempotent Qc_dtype Qc_library
           Qcopp Qcinv Qcft 4 (repeat [Q2Qc 1] 3)
           [Q2Qc 1; Q2Qc 2; Q2Qc 6]).
  - lia.
  - reflexivity.
  - exact Qc_pinv_ones_moore_penrose.
  - reflexivity.
Defined.

Lemma constant_trend_shift_invariant_witness :
  @project Qc_dtype (repeat [Q2Qc 1] 3) (Qc_pinv (repeat [Q2Qc 1] 3))
    [map (fun v => Qcplus v (Q2Qc 10)) [Q2Qc 1; Q2Qc 2; Q2Qc 6]]
  = @project Qc_dtype (repeat [Q2Qc 1] 3) (Qc_pinv (repeat [Q2Qc 1] 3))
      [[Q2Qc 1; Q2Qc 2; Q2Qc 6]].
Proof.
  apply (@constant_trend_shift_invariant Qc_dtype Qc_library
           Qcopp Qcinv Qcft 4 (repeat [Q2Qc 1] 3)
           [Q2Qc 1; Q2Qc 2; Q2Qc 6] (Q2Qc 10)).
  - lia.
  - reflexivity.
  - exact Qc_pinv_ones_moore_penrose.
  - reflexivity.
Defined.

Lemma block_fits_budget_witness :
  let count := if 262144 <? 3 then 262144 else 3 in
  0 <= count <= 262144 /\ 8 * 50 * count <= 2 ^ 20 * 100.
Proof.
  apply (@block_fits_budget Qc_dtype 100 50 262144
           (@mkLoop Qc_dtype (mkRandomState 0 0) 3 [] 0));
    [vm_compute; reflexivity | lia | lia | lia | lia | simpl; lia].
Defined.

Lemma column_statistic_exact_ar1_witness :
  @column_statistic Qc_dtype 2 (map (Qcmult (Q2Qc 3)) [Q2Qc 1; Q2Qc 2])
    [Q2Qc 1; Q2Qc 2]
  = Qcmult (Q2Qc (inject_Z 2)) (Qcminus (Q2Qc 3) (Q2Qc 1)).
Proof.
  apply (@column_statistic_exact_ar1 Qc_dtype Qcopp Qcinv Qcft 2 (Q2Qc 3)
           [Q2Qc 1; Q2Qc 2]).
  intros H. apply (f_equal this) in H. vm_compute in H. discriminate H.
Defined.

Lemma column_statistic_scale_invariant_witness :
  @column_statistic Qc_dtype 2 (map (Qcmult (Q2Qc 3)) [Q2Qc 2; Q2Qc 5])
    (map (Qcmult (Q2Qc 3)) [Q2Qc 1; Q2Qc 2])
  = @column_statistic Qc_dtype 2 [Q2Qc 2; Q2Qc 5] [Q2Qc 1; Q2Qc 2].
Proof.
  apply (@column_statistic_scale_invariant Qc_dtype Qcopp Qcinv Qcft 2
           (Q2Qc 3) [Q2Qc 2; Q2Qc 5] [Q2Qc 1; Q2Qc 2]).
  - intros H. apply (f_equal this) in H. vm_compute in H. discriminate H.
  - intros H. apply (f_equal this) in H. vm_compute in H. discriminate H.
Defined.
